(** * gqlfetch: from an introspection result to SDL text

    A shallow embedding of [main.go] (package [gqlfetch]): the type-reference
    resolver [introspectionTypeToAstType], the printers [printDirectives],
    [printTypes], [printInterface], [printDescription], [printSchema] and the
    part of [BuildClientSchemaWithOptions] that follows the HTTP exchange.

    Go strings are [string]; a [*T] that may be nil is an [option T]; the
    [*strings.Builder] that the printers share is passed explicitly as the text
    written so far; a nil-pointer dereference is the explicit outcome
    [Panic] / [Panicked]. *)

From Stdlib Require Import String Ascii List Bool Arith Lia.
Import ListNotations.
Local Open Scope string_scope.

(** ** Characters that a Rocq string literal cannot hold *)

Definition nl : string := String (ascii_of_nat 10) EmptyString.
Definition tab : string := String (ascii_of_nat 9) EmptyString.
Definition dquote : string := String (ascii_of_nat 34) EmptyString.
Definition quote3 : string := dquote ++ dquote ++ dquote.

(** ** Data model *)

(** [type introspectionTypeKind string] with its constants. *)
Definition introspectionTypeKind := string.
Definition NON_NULL : introspectionTypeKind := "NON_NULL".
Definition LIST : introspectionTypeKind := "LIST".
Definition OBJECT : introspectionTypeKind := "OBJECT".

(** [type introspectedType struct { Kind; Name *string; OfType *introspectedType }] *)
#[warning="-register-all"]
Inductive introspectedType : Type :=
  mkIntrospectedType (Kind : introspectionTypeKind)
                     (Name : option string)
                     (OfType : option introspectedType).

Definition Kind (t : introspectedType) : introspectionTypeKind :=
  match t with mkIntrospectedType k _ _ => k end.
Definition Name (t : introspectedType) : option string :=
  match t with mkIntrospectedType _ n _ => n end.
Definition OfType (t : introspectedType) : option introspectedType :=
  match t with mkIntrospectedType _ _ o => o end.

(** [ast.Type] of gqlparser, without its [Position] (never set here). *)
#[warning="-register-all"]
Inductive Type_ : Type :=
  mkType (NamedType : string) (Elem : option Type_) (NonNull : bool).

Definition NamedType (t : Type_) : string :=
  match t with mkType n _ _ => n end.
Definition Elem (t : Type_) : option Type_ :=
  match t with mkType _ e _ => e end.
Definition NonNull (t : Type_) : bool :=
  match t with mkType _ _ b => b end.

(** Go [error] values built by this package, kept as the tree that
    [fmt.Errorf] with [%w] builds; the operands printed with [%v] are kept
    as they are passed. *)
Inductive error : Type :=
| errors_New (text : string)
    (* errors.New(text) *)
| Errorf_kind_unknown (kind : introspectionTypeKind)
    (* fmt.Errorf("type kind unknown: %s", kind) *)
| Errorf_convert (err : error) (operand : option introspectedType)
    (* fmt.Errorf("convert introspection type to AST type: %w\n%v", err, operand) *)
| Errorf_enum_values (err : error) (raw : string)
    (* fmt.Errorf("cannot unmarshal enum values: %w\n%v", err, raw) *)
| Errorf_not_handling (kind : string)
    (* fmt.Errorf(fmt.Sprintf("not handling kind: %v", kind)) *)
| Errorf_cannot_print (kind : string)
    (* fmt.Errorf("cannot print %v as %v", kind, ast.Interface) *)
| json_error (text : string)
    (* an error returned by json.Unmarshal *)
| transport_error (text : string).
    (* an error of the request, the exchange or the decoding of its body *)

(** What a Go function of result type [(T, error)] does: return a value and a
    nil error, return an error, or panic. *)
Inductive result (A : Type) : Type :=
| Ok (a : A)
| Err (e : error)
| Panic.
Arguments Ok {A} a.
Arguments Err {A} e.
Arguments Panic {A}.

(** What a Go function without an error result does: return or panic. *)
Inductive outcome (A : Type) : Type :=
| Returned (a : A)
| Panicked.
Arguments Returned {A} a.
Arguments Panicked {A}.

(** ** The type-reference resolver *)

(** [introspectionTypeToAstType] at a pointer that is not nil. *)
Fixpoint introspectionTypeToAstType_at (typ : introspectedType) : result Type_ :=
  match typ with
  | mkIntrospectedType kind name ofType =>
    match ofType with
    | None =>
      match name with
      | None => Panic                          (* *typ.Name with typ.Name == nil *)
      | Some n => Ok (mkType n None false)
      end
    | Some inner =>
      if String.eqb kind NON_NULL then
        match introspectionTypeToAstType_at inner with
        | Ok astType => Ok (mkType (NamedType astType) (Elem astType) true)
        | Err err => Err (Errorf_convert err ofType)
        | Panic => Panic
        end
      else if String.eqb kind LIST then
        match introspectionTypeToAstType_at inner with
        | Ok astType => Ok (mkType EmptyString (Some astType) false)
        | Err err => Err (Errorf_convert err ofType)
        | Panic => Panic
        end
      else Err (Errorf_kind_unknown kind)
    end
  end.

(** [func introspectionTypeToAstType(typ *introspectedType)], of result type
    [*ast.Type, error]; [typ.OfType] on a nil [typ] panics. *)
Definition introspectionTypeToAstType (typ : option introspectedType) : result Type_ :=
  match typ with
  | None => Panic
  | Some t => introspectionTypeToAstType_at t
  end.

(** Modelled from the spec: the method [String] of [ast.Type] is code of the
    gqlparser library and is not part of the sources; the resolved expression
    renders as SDL's [Name], [[Name]], [Name!], [[Name!]!]: a named type prints
    its name, any other type prints its element in brackets, and a non-null
    type is followed by an exclamation mark.  A type with neither a name nor an
    element dereferences a nil [Elem]. *)
Fixpoint Type_String (t : Type_) : outcome string :=
  match t with
  | mkType namedType elem nonNull =>
    let nn := if nonNull then "!" else EmptyString in
    if negb (String.eqb namedType EmptyString) then Returned (namedType ++ nn)
    else
      match elem with
      | None => Panicked
      | Some e =>
        match Type_String e with
        | Returned s => Returned ("[" ++ s ++ "]" ++ nn)
        | Panicked => Panicked
        end
      end
  end.

(** ** The decoded introspection result *)

(** [introspectionInputField]; the anonymous struct of a directive's [Args]
    has the same fields.  [DefaultValue] is never read. *)
Record introspectionInputField : Type := mkInputField {
  arg_Name : string;
  arg_Description : string;
  arg_Type : option introspectedType
}.

(** [introspectedTypeField]; [IsDeprecated] and [DeprecationReason] are never
    read. *)
Record introspectedTypeField : Type := mkTypeField {
  field_Name : string;
  field_Description : string;
  field_Args : list introspectionInputField;
  field_Type : option introspectedType
}.

(** [json.RawMessage]: the bytes as they came. *)
Definition RawMessage := string.

(** [ast.DefinitionKind] and its constants. *)
Definition DefinitionKind := string.
Definition ast_Scalar : DefinitionKind := "SCALAR".
Definition ast_Object : DefinitionKind := "OBJECT".
Definition ast_Interface : DefinitionKind := "INTERFACE".
Definition ast_Union : DefinitionKind := "UNION".
Definition ast_Enum : DefinitionKind := "ENUM".
Definition ast_InputObject : DefinitionKind := "INPUT_OBJECT".

(** [introspectionTypeDefinition]; of each [ast.Definition] in [Interfaces]
    only the name is read. *)
Record introspectionTypeDefinition : Type := mkTypeDefinition {
  typ_Kind : DefinitionKind;
  typ_Name : string;
  typ_Description : string;
  typ_Fields : list introspectedTypeField;
  typ_InputFields : list introspectionInputField;
  typ_Interfaces : list string;
  typ_EnumValues : RawMessage;
  typ_PossibleTypes : RawMessage
}.

(** [introspectionDirectiveDefinition]; an [ast.DirectiveLocation] is a string. *)
Record introspectionDirectiveDefinition : Type := mkDirectiveDefinition {
  directive_Name : string;
  directive_Description : string;
  directive_Locations : list string;
  directive_Args : list introspectionInputField
}.

(** [introspectionSchema]; [QueryType] and [MutationType] are never read. *)
Record introspectionSchema : Type := mkSchema {
  Types : list introspectionTypeDefinition;
  Directives : list introspectionDirectiveDefinition
}.

(** [introspectionResults]: an entry of [Errors] is a struct with a [Message];
    [Data] is [Data.Schema]. *)
Record responseError : Type := mkResponseError { Message : string }.

Record introspectionResults : Type := mkResults {
  Errors : list responseError;
  Data : introspectionSchema
}.

(** [ast.EnumValueDefinition], of which name and description are printed. *)
Record EnumValueDefinition : Type := mkEnumValue {
  value_Description : string;
  value_Name : string
}.

(** [BuildClientSchemaOptions]. *)
Record BuildClientSchemaOptions : Type := mkOptions {
  Endpoint : string;
  Method : string;
  Headers : list (string * list string);
  WithoutBuiltins : bool
}.

(** ** Helpers *)

Definition excludeScalarTypes : list string :=
  ["ID"; "Int"; "String"; "Float"; "Boolean"].
Definition excludeDirectives : list string :=
  ["deprecated"; "include"; "skip"].

Fixpoint containsStr (needle : string) (hay : list string) : bool :=
  match hay with
  | [] => false
  | s :: rest => if String.eqb needle s then true else containsStr needle rest
  end.

(** [strings.HasPrefix(s, prefix)]. *)
Definition HasPrefix (s pre : string) : bool := String.prefix pre s.

(** [strings.Join(elems, sep)]. *)
Fixpoint Join (elems : list string) (sep : string) : string :=
  match elems with
  | [] => EmptyString
  | [x] => x
  | x :: rest => x ++ sep ++ Join rest sep
  end.

(** The contents of a [strings.Builder]; [WriteString] appends. *)
Definition Builder := string.
Definition WriteString (sb : Builder) (s : string) : Builder := sb ++ s.

(** A printer leaves the builder it was given with some text appended and
    returns an error or nil, or panics. *)
Definition printed := outcome (Builder * option error).

Definition printDescription (sb : Builder) (description : string) : Builder :=
  if negb (String.eqb description EmptyString)
  then WriteString (WriteString sb (quote3 ++ description ++ quote3)) nl
  else sb.

(** The loops [for i, x := range xs] that write [x] and, when
    [i < len(xs)-1], the separator. *)
Fixpoint write_separated (sep : string) (xs : list string) (sb : Builder) : Builder :=
  match xs with
  | [] => sb
  | x :: rest =>
    let sb := WriteString sb x in
    let sb := match rest with [] => sb | _ :: _ => WriteString sb sep end in
    write_separated sep rest sb
  end.

(** A [for _, x := range xs] loop whose body may return an error (the loop
    stops and the function returns it), panic, or go on to the next element. *)
Definition and_then (p : printed) (k : Builder -> printed) : printed :=
  match p with
  | Returned (sb, None) => k sb
  | Returned (sb, Some err) => Returned (sb, Some err)
  | Panicked => Panicked
  end.

Fixpoint each {A : Type} (body : Builder -> A -> printed) (xs : list A)
    (sb : Builder) : printed :=
  match xs with
  | [] => Returned (sb, None)
  | x :: rest => and_then (body sb x) (each body rest)
  end.

(** The three statements found at every use of the resolver:
    [astType, err := introspectionTypeToAstType(ref)], then
    [return fmt.Errorf("convert introspection type to AST type: %w\n%v", err, ref)]
    when [err != nil], then [astType.String()] as operand of the write. *)
Definition resolved_text (ref : option introspectedType) : result string :=
  match introspectionTypeToAstType ref with
  | Panic => Panic
  | Err err => Err (Errorf_convert err ref)
  | Ok astType =>
    match Type_String astType with
    | Returned s => Ok s
    | Panicked => Panic
    end
  end.

(** The loops over arguments and input fields: the description written before
    the entry (none when [description_of] gives [None]), the entry's type
    resolved, and the line [indent name: type]. *)
Definition print_input_value (indent : string)
    (description_of : introspectionInputField -> option string)
    (sb : Builder) (arg : introspectionInputField) : printed :=
  let sb := match description_of arg with
            | Some d => printDescription sb d
            | None => sb
            end in
  match resolved_text (arg_Type arg) with
  | Panic => Panicked
  | Err err => Returned (sb, Some err)
  | Ok s => Returned (WriteString sb (indent ++ arg_Name arg ++ ": " ++ s ++ nl), None)
  end.

(** [if len(args) > 0 { sb.WriteString("(\n"); for ... ; sb.WriteString(close) }] *)
Definition print_arguments (indent close : string)
    (description_of : introspectionInputField -> option string)
    (args : list introspectionInputField) (sb : Builder) : printed :=
  if Nat.ltb 0 (List.length args) then
    and_then (each (print_input_value indent description_of) args
                   (WriteString sb ("(" ++ nl)))
             (fun sb => Returned (WriteString sb close, None))
  else Returned (sb, None).

(** The body of the loop over the fields of an object or interface type:
    [description] is what the loop passes to [printDescription] before the
    field, [arg_description_of] what it does before each argument. *)
Definition print_field (description : introspectedTypeField -> string)
    (arg_description_of : introspectionInputField -> option string)
    (sb : Builder) (field : introspectedTypeField) : printed :=
  let sb := printDescription sb (description field) in
  let sb := WriteString sb (tab ++ field_Name field) in
  and_then (print_arguments (tab ++ tab) (tab ++ ")") arg_description_of
                            (field_Args field) sb)
    (fun sb =>
       match resolved_text (field_Type field) with
       | Panic => Panicked
       | Err err => Returned (sb, Some err)
       | Ok s => Returned (WriteString sb (": " ++ s ++ nl), None)
       end).

(** The loop over the possible types of a union. *)
Fixpoint print_possible (possible : list (option introspectedType))
    (sb : Builder) : printed :=
  match possible with
  | [] => Returned (sb, None)
  | typ :: rest =>
    match resolved_text typ with
    | Panic => Panicked
    | Err err => Returned (sb, Some err)
    | Ok s =>
      let sb := WriteString sb s in
      let sb := match rest with [] => sb | _ :: _ => WriteString sb " | " end in
      print_possible rest sb
    end
  end.

(** The body of the loop over enum values; the list holds pointers. *)
Definition print_enum_value (sb : Builder) (value : option EnumValueDefinition)
    : printed :=
  match value with
  | None => Panicked
  | Some v =>
    let sb := printDescription sb (value_Description v) in
    Returned (WriteString sb (tab ++ value_Name v ++ nl), None)
  end.

(** ** The printers *)

Definition printInterface (sb : Builder) (typ : introspectionTypeDefinition)
    : printed :=
  if negb (String.eqb (typ_Kind typ) ast_Interface)
  then Returned (sb, Some (Errorf_cannot_print (typ_Kind typ)))
  else
    let sb := WriteString sb ("interface " ++ typ_Name typ ++ " {" ++ nl) in
    and_then (each (print_field (fun _ => typ_Description typ) (fun _ => None))
                   (typ_Fields typ) sb)
      (fun sb => Returned (WriteString sb "}", None)).

Definition printDirective (withoutBuiltins : bool) (sb : Builder)
    (directive : introspectionDirectiveDefinition) : printed :=
  if withoutBuiltins && containsStr (directive_Name directive) excludeDirectives
  then Returned (sb, None)
  else
    let sb := printDescription sb (directive_Description directive) in
    let sb := WriteString sb ("directive @" ++ directive_Name directive) in
    and_then (print_arguments tab ")" (fun arg => Some (arg_Description arg))
                              (directive_Args directive) sb)
      (fun sb =>
         let sb := WriteString sb " on " in
         let sb := write_separated " | " (directive_Locations directive) sb in
         let sb := WriteString sb nl in
         let sb := WriteString sb nl in
         Returned (sb, None)).

Definition printDirectives (sb : Builder)
    (directives : list introspectionDirectiveDefinition)
    (withoutBuiltins : bool) : printed :=
  each (printDirective withoutBuiltins) directives sb.

Section Printer.

(** [json.Unmarshal] at the two types the printer decodes a raw message to:
    [[]*introspectedType] and [ast.EnumValueList]. *)
Variable Unmarshal_possibleTypes : RawMessage -> result (list (option introspectedType)).
Variable Unmarshal_enumValues : RawMessage -> result (list (option EnumValueDefinition)).

(** The [switch typ.Kind] of [printTypes]. *)
Definition printTypes_switch (sb : Builder) (typ : introspectionTypeDefinition)
    : printed :=
  if String.eqb (typ_Kind typ) ast_Object then
    let sb := WriteString sb ("type " ++ typ_Name typ ++ " ") in
    let sb := if Nat.ltb 0 (List.length (typ_Interfaces typ))
              then write_separated " & " (typ_Interfaces typ)
                                   (WriteString sb "implements ")
              else sb in
    let sb := WriteString sb ("{" ++ nl) in
    and_then (each (print_field field_Description
                                (fun arg => Some (arg_Description arg)))
                   (typ_Fields typ) sb)
      (fun sb => Returned (WriteString sb "}", None))
  else if String.eqb (typ_Kind typ) ast_Union then
    let sb := WriteString sb ("union " ++ typ_Name typ ++ " =") in
    match Unmarshal_possibleTypes (typ_PossibleTypes typ) with
    | Panic => Panicked
    | Err err => Returned (sb, Some err)
    | Ok possible => print_possible possible sb
    end
  else if String.eqb (typ_Kind typ) ast_Enum then
    let sb := WriteString sb ("enum " ++ typ_Name typ ++ " {" ++ nl) in
    match Unmarshal_enumValues (typ_EnumValues typ) with
    | Panic => Panicked
    | Err err => Returned (sb, Some (Errorf_enum_values err (typ_EnumValues typ)))
    | Ok enumValues =>
      and_then (each print_enum_value enumValues sb)
        (fun sb => Returned (WriteString sb "}", None))
    end
  else if String.eqb (typ_Kind typ) ast_Scalar then
    Returned (WriteString sb ("scalar " ++ typ_Name typ), None)
  else if String.eqb (typ_Kind typ) ast_InputObject then
    let sb := WriteString sb ("input " ++ typ_Name typ ++ " {" ++ nl) in
    and_then (each (print_input_value tab (fun _ => Some (typ_Description typ)))
                   (typ_InputFields typ) sb)
      (fun sb => Returned (WriteString sb "}", None))
  else if String.eqb (typ_Kind typ) ast_Interface then
    match printInterface sb typ with       (* the error is dropped *)
    | Returned (sb, _) => Returned (sb, None)
    | Panicked => Panicked
    end
  else Returned (sb, Some (Errorf_not_handling (typ_Kind typ))).

(** The body of the loop of [printTypes]. *)
Definition printType (withoutBuiltins : bool) (sb : Builder)
    (typ : introspectionTypeDefinition) : printed :=
  if HasPrefix (typ_Name typ) "__" then Returned (sb, None)
  else if withoutBuiltins && containsStr (typ_Name typ) excludeScalarTypes
          && String.eqb (typ_Kind typ) ast_Scalar
  then Returned (sb, None)
  else
    let sb := printDescription sb (typ_Description typ) in
    and_then (printTypes_switch sb typ)
      (fun sb =>
         let sb := WriteString sb nl in
         let sb := WriteString sb nl in
         Returned (sb, None)).

Definition printTypes (sb : Builder) (types : list introspectionTypeDefinition)
    (withoutBuiltins : bool) : printed :=
  each (printType withoutBuiltins) types sb.

(** [printSchema] starts from a new builder, drops the errors of both
    printers and returns what the builder holds. *)
Definition printSchema (schema : introspectionSchema) (withoutBuiltins : bool)
    : outcome string :=
  match printDirectives EmptyString (Directives schema) withoutBuiltins with
  | Panicked => Panicked
  | Returned (sb, _) =>
    match printTypes sb (Types schema) withoutBuiltins with
    | Panicked => Panicked
    | Returned (sb, _) => Returned sb
    end
  end.

(** Lines 46 to 76 of [BuildClientSchemaWithOptions]: the request is built
    and sent and the body of the response decoded; every failure there
    returns the empty string and the error. *)
Variable exchange : BuildClientSchemaOptions -> result introspectionResults.

Definition BuildClientSchemaWithOptions (options : BuildClientSchemaOptions)
    : outcome (string * option error) :=
  match exchange options with
  | Panic => Panicked
  | Err err => Returned (EmptyString, Some err)
  | Ok schemaResponse =>
    if negb (Nat.eqb (List.length (Errors schemaResponse)) 0) then
      let errs := List.map Message (Errors schemaResponse) in
      Returned (EmptyString,
                Some (errors_New ("encountered the following GraphQL errors: "
                                  ++ Join errs ",")))
    else
      match printSchema (Data schemaResponse) (WithoutBuiltins options) with
      | Panicked => Panicked
      | Returned text => Returned (text, None)
      end
  end.

End Printer.

(** ** Error messages *)

Section ErrorText.

(** What [fmt] prints and this development does not compute: [%v] of a
    [*introspectedType] (it shows addresses), [%v] of a [json.RawMessage],
    and a format string without operands. *)
Variable fmt_v_type : option introspectedType -> string.
Variable fmt_v_raw : RawMessage -> string.
Variable fmt_no_operand : string -> string.

(** The method [Error()] of an error value. *)
Fixpoint Error (e : error) : string :=
  match e with
  | errors_New text => text
  | Errorf_kind_unknown kind => "type kind unknown: " ++ kind
  | Errorf_convert err operand =>
    "convert introspection type to AST type: " ++ Error err ++ nl
      ++ fmt_v_type operand
  | Errorf_enum_values err raw =>
    "cannot unmarshal enum values: " ++ Error err ++ nl ++ fmt_v_raw raw
  | Errorf_not_handling kind => fmt_no_operand ("not handling kind: " ++ kind)
  | Errorf_cannot_print kind => "cannot print " ++ kind ++ " as " ++ ast_Interface
  | json_error text => text
  | transport_error text => text
  end.

End ErrorText.

(** [errors.Unwrap]: the error wrapped with [%w], if any. *)
Definition Unwrap (e : error) : option error :=
  match e with
  | Errorf_convert err _ => Some err
  | Errorf_enum_values err _ => Some err
  | _ => None
  end.

(** The innermost error of the chain of [Unwrap]. *)
Fixpoint root_cause (e : error) : error :=
  match e with
  | Errorf_convert err _ => root_cause err
  | Errorf_enum_values err _ => root_cause err
  | _ => e
  end.

(** [contains s sub]: [sub] occurs in [s]. *)
Definition contains (s sub : string) : Prop :=
  exists before after, s = before ++ sub ++ after.

(** ** Vocabulary for the properties of type references *)

(** [in_chain node typ]: [node] is [typ] or a node reached from it through
    [OfType]. *)
Inductive in_chain (node : introspectedType) : introspectedType -> Prop :=
| in_chain_here : in_chain node node
| in_chain_inner kind name inner :
    in_chain node inner ->
    in_chain node (mkIntrospectedType kind name (Some inner)).

(** A node that is not a leaf and whose kind is neither NON_NULL nor LIST. *)
Definition unknown_wrapper (node : introspectedType) : Prop :=
  OfType node <> None /\ Kind node <> NON_NULL /\ Kind node <> LIST.

(** The two wrappers, and the reference that nests them, outermost first,
    around a leaf. *)
Inductive wrapper : Type := WNonNull | WList.

Definition wrapper_kind (w : wrapper) : introspectionTypeKind :=
  match w with WNonNull => NON_NULL | WList => LIST end.

Fixpoint wrap_chain (ws : list wrapper) (leaf : introspectedType) : introspectedType :=
  match ws with
  | [] => leaf
  | w :: inner => mkIntrospectedType (wrapper_kind w) None (Some (wrap_chain inner leaf))
  end.

(** [chain_of ws name typ]: [typ] is the wrappers [ws], outermost first, around
    a leaf named [name]; the kind of the leaf and the names that the wrapper
    nodes may carry are free. *)
Inductive chain_of : list wrapper -> string -> introspectedType -> Prop :=
| chain_of_leaf kind name :
    chain_of [] name (mkIntrospectedType kind (Some name) None)
| chain_of_wrapper w ws name wrapper_name inner :
    chain_of ws name inner ->
    chain_of (w :: ws) name
             (mkIntrospectedType (wrapper_kind w) wrapper_name (Some inner)).

(** The resolved type expression as the specification words it: a text and
    a non-null marker.  A leaf is its name; NON_NULL sets the marker of the
    current expression; LIST makes the current expression, rendered, the
    element of a list that is not marked. *)
Record expression : Type := mkExpression { body : string; non_null : bool }.

Definition render (e : expression) : string :=
  body e ++ (if non_null e then "!" else EmptyString).

Fixpoint implied_expression (ws : list wrapper) (name : string) : expression :=
  match ws with
  | [] => mkExpression name false
  | WNonNull :: inner => mkExpression (body (implied_expression inner name)) true
  | WList :: inner =>
    mkExpression ("[" ++ render (implied_expression inner name) ++ "]") false
  end.

Definition implied_sdl (ws : list wrapper) (name : string) : string :=
  render (implied_expression ws name).

(** The nesting read off the chain sign by sign: an exclamation mark for each
    NON_NULL, a pair of brackets for each LIST. *)
Fixpoint nesting_text (ws : list wrapper) (name : string) : string :=
  match ws with
  | [] => name
  | WNonNull :: inner => nesting_text inner name ++ "!"
  | WList :: inner => "[" ++ nesting_text inner name ++ "]"
  end.

(** A NON_NULL directly around a NON_NULL. *)
Fixpoint doubled_non_null (ws : list wrapper) : bool :=
  match ws with
  | WNonNull :: ((WNonNull :: _) as inner) => true
  | _ :: inner => doubled_non_null inner
  | [] => false
  end.

(** ** Vocabulary for the properties of the printer *)

(** Sequencing of calls that may panic. *)
Definition bind {A B : Type} (m : outcome A) (k : A -> outcome B) : outcome B :=
  match m with
  | Returned a => k a
  | Panicked => Panicked
  end.


(** [grows sb p]: if [p] returned, its builder is no shorter than [sb]. *)
Definition grows (sb : Builder) (p : printed) : Prop :=
  match p with
  | Returned (sb', _) => String.length sb <= String.length sb'
  | Panicked => True
  end.

(** [begins_with s pre]: the text [s] starts with [pre]. *)
Definition begins_with (s pre : string) : Prop := exists rest, s = pre ++ rest.

(** ** Sample inputs *)

(** Decoders for schemas that hold no raw message worth decoding. *)
Definition no_possibleTypes : RawMessage -> result (list (option introspectedType)) :=
  fun _ => Ok [].
Definition no_enumValues : RawMessage -> result (list (option EnumValueDefinition)) :=
  fun _ => Ok [].

Definition String_leaf : introspectedType :=
  mkIntrospectedType "SCALAR" (Some "String") None.

(** [{"kind": "BOGUS", "name": null, "ofType": {"kind": "SCALAR", "name": "String"}}] *)
Definition bogus_reference : introspectedType :=
  mkIntrospectedType "BOGUS" None (Some String_leaf).

(** One object type [Query] whose field [hello] has the reference above as
    its type. *)
Definition bogus_schema : introspectionSchema :=
  mkSchema
    [mkTypeDefinition ast_Object "Query" EmptyString
       [mkTypeField "hello" EmptyString [] (Some bogus_reference)]
       [] [] EmptyString EmptyString]
    [].

(** A schema whose only type has a kind the printer does not handle. *)
Definition unhandled_schema : introspectionSchema :=
  mkSchema
    [mkTypeDefinition "FRAGMENT" "Odd" EmptyString [] [] [] EmptyString EmptyString]
    [].

Definition post_options : BuildClientSchemaOptions :=
  mkOptions "http://localhost/graphql" "POST" [] false.

(** Types described as "about T" whose one field [f : String] is described
    as "about f": an object, an interface and an input object. *)
Definition described_field : introspectedTypeField :=
  mkTypeField "f" "about f" [] (Some String_leaf).
Definition described_input_field : introspectionInputField :=
  mkInputField "f" "about f" (Some String_leaf).
Definition described_object : introspectionTypeDefinition :=
  mkTypeDefinition ast_Object "T" "about T" [described_field] [] []
                   EmptyString EmptyString.
Definition described_interface : introspectionTypeDefinition :=
  mkTypeDefinition ast_Interface "T" "about T" [described_field] [] []
                   EmptyString EmptyString.
Definition described_input : introspectionTypeDefinition :=
  mkTypeDefinition ast_InputObject "T" "about T" [] [described_input_field] []
                   EmptyString EmptyString.

(** An object type named like one of introspection's own types. *)
Definition meta_type : introspectionTypeDefinition :=
  mkTypeDefinition ast_Object "__Type" EmptyString [] [] [] EmptyString EmptyString.

(** The scalar [String] and an object type of that name. *)
Definition String_scalar : introspectionTypeDefinition :=
  mkTypeDefinition ast_Scalar "String" EmptyString [] [] [] EmptyString EmptyString.
Definition String_object : introspectionTypeDefinition :=
  mkTypeDefinition ast_Object "String" EmptyString [] [] [] EmptyString EmptyString.

(** A response with two GraphQL errors and a schema all the same. *)
Definition failed_response : introspectionResults :=
  mkResults [mkResponseError "not allowed"; mkResponseError "too deep"]
            (mkSchema [String_scalar] []).

(** ** Vocabulary for further properties *)

(** [wraps ws node typ]: [typ] is the wrappers [ws], outermost first, around
    [node]; the names that the wrapper nodes may carry are free. *)
Inductive wraps : list wrapper -> introspectedType -> introspectedType -> Prop :=
| wraps_here node : wraps [] node node
| wraps_wrapper w ws node wrapper_name inner :
    wraps ws node inner ->
    wraps (w :: ws) node
          (mkIntrospectedType (wrapper_kind w) wrapper_name (Some inner)).

(** How many errors an error wraps with [%w], one inside the other. *)
Fixpoint error_depth (e : error) : nat :=
  match e with
  | Errorf_convert err _ => S (error_depth err)
  | Errorf_enum_values err _ => S (error_depth err)
  | _ => 0
  end.

(** The name at the bottom of an [ast.Type] and the number of list levels
    above it. *)
Fixpoint leaf_name (t : Type_) : string :=
  match t with
  | mkType namedType None _ => namedType
  | mkType _ (Some e) _ => leaf_name e
  end.

Fixpoint list_depth (t : Type_) : nat :=
  match t with
  | mkType _ None _ => 0
  | mkType _ (Some e) _ => S (list_depth e)
  end.

Definition is_list_wrapper (w : wrapper) : bool :=
  match w with WList => true | WNonNull => false end.

(** [prefixed p r]: the result [r] of a printer, with the text [p] before what
    its builder holds. *)
Definition prefixed (p : string) (r : printed) : printed :=
  match r with
  | Returned (sb, err) => Returned (p ++ sb, err)
  | Panicked => Panicked
  end.

(** The two tests of builtin exclusion, and a schema without the definitions
    they select. *)
Definition builtin_directive (directive : introspectionDirectiveDefinition) : bool :=
  containsStr (directive_Name directive) excludeDirectives.

Definition builtin_scalar (typ : introspectionTypeDefinition) : bool :=
  containsStr (typ_Name typ) excludeScalarTypes
  && String.eqb (typ_Kind typ) ast_Scalar.

Definition strip_builtins (schema : introspectionSchema) : introspectionSchema :=
  mkSchema (filter (fun typ => negb (builtin_scalar typ)) (Types schema))
           (filter (fun directive => negb (builtin_directive directive))
                   (Directives schema)).

(** The text of one enum value: its description, if any, and its line. *)
Definition enum_value_text (v : EnumValueDefinition) : string :=
  printDescription EmptyString (value_Description v) ++ tab ++ value_Name v ++ nl.

Fixpoint concat_text (parts : list string) : string :=
  match parts with
  | [] => EmptyString
  | part :: rest => part ++ concat_text rest
  end.

(** The text of one argument whose type renders as [rendered], and of a
    list of arguments: nothing for no argument, else the lines between an
    opening parenthesis and [close]. *)
Definition argument_text (indent : string) (arg : introspectionInputField)
    (rendered : string) : string :=
  printDescription EmptyString (arg_Description arg)
  ++ indent ++ arg_Name arg ++ ": " ++ rendered ++ nl.

Fixpoint argument_lines (indent : string) (args : list introspectionInputField)
    (rendered : list string) : string :=
  match args, rendered with
  | arg :: args', r :: rendered' =>
    argument_text indent arg r ++ argument_lines indent args' rendered'
  | _, _ => EmptyString
  end.

Definition arguments_text (indent close : string)
    (args : list introspectionInputField) (rendered : list string) : string :=
  match args with
  | [] => EmptyString
  | _ :: _ => "(" ++ nl ++ argument_lines indent args rendered ++ close
  end.

(** The text of one field of an object type whose arguments render as
    [fst rendered] and whose type renders as [snd rendered]: its description,
    if any, and its line, with the arguments after the name. *)
Definition field_text (field : introspectedTypeField)
    (rendered : list string * string) : string :=
  printDescription EmptyString (field_Description field)
  ++ tab ++ field_Name field
  ++ arguments_text (tab ++ tab) (tab ++ ")") (field_Args field) (fst rendered)
  ++ ": " ++ snd rendered ++ nl.

Fixpoint fields_text (fields : list introspectedTypeField)
    (rendered : list (list string * string)) : string :=
  match fields, rendered with
  | field :: fields', r :: rendered' => field_text field r ++ fields_text fields' rendered'
  | _, _ => EmptyString
  end.

(** [fields_resolve fields rendered]: field by field, the types of the
    arguments and the type of the field resolve and render as [rendered]
    says. *)
Definition field_resolves (field : introspectedTypeField)
    (rendered : list string * string) : Prop :=
  List.map (fun arg => resolved_text (arg_Type arg)) (field_Args field)
  = List.map Ok (fst rendered)
  /\ resolved_text (field_Type field) = Ok (snd rendered).

Definition fields_resolve (fields : list introspectedTypeField)
    (rendered : list (list string * string)) : Prop :=
  Forall2 field_resolves fields rendered.

(** The clause that follows the name of an object type. *)
Definition implements_text (interfaces : list string) : string :=
  match interfaces with
  | [] => EmptyString
  | _ :: _ => "implements " ++ Join interfaces " & "
  end.

(** More sample inputs. *)
Definition custom_directive : introspectionDirectiveDefinition :=
  mkDirectiveDefinition "customDirective" EmptyString ["FIELD"; "QUERY"] [].
Definition skip_directive : introspectionDirectiveDefinition :=
  mkDirectiveDefinition "skip" EmptyString ["FIELD"] [].
Definition Color_type : introspectionTypeDefinition :=
  mkTypeDefinition ast_Enum "Color" EmptyString [] [] [] "[...]" EmptyString.
Definition Color_values : list EnumValueDefinition :=
  [mkEnumValue "primary red" "RED"; mkEnumValue EmptyString "GREEN";
   mkEnumValue EmptyString "BLUE"].
Definition Pet_type : introspectionTypeDefinition :=
  mkTypeDefinition ast_Union "Pet" EmptyString [] [] [] EmptyString "[...]".
Definition Pet_possible : list (option introspectedType) :=
  [Some (mkIntrospectedType "OBJECT" (Some "Cat") None);
   Some (mkIntrospectedType "OBJECT" (Some "Dog") None)].
(** An exchange that fails, and a directive with one argument. *)
Definition refused_exchange : BuildClientSchemaOptions -> result introspectionResults :=
  fun _ => Err (transport_error "connection refused").
Definition include_directive : introspectionDirectiveDefinition :=
  mkDirectiveDefinition "include" EmptyString ["FIELD"]
    [mkInputField "if" "Included when true."
       (Some (mkIntrospectedType NON_NULL None
                (Some (mkIntrospectedType "SCALAR" (Some "Boolean") None))))].
(** [type User implements Node] with the field [posts(first: Int): [Post!]!]. *)
Definition User_type : introspectionTypeDefinition :=
  mkTypeDefinition ast_Object "User" EmptyString
    [mkTypeField "posts" EmptyString
       [mkInputField "first" EmptyString
          (Some (mkIntrospectedType "SCALAR" (Some "Int") None))]
       (Some (wrap_chain [WNonNull; WList; WNonNull]
                         (mkIntrospectedType "OBJECT" (Some "Post") None)))]
    [] ["Node"] EmptyString EmptyString.

(** * Properties *)

(** ** Strings *)

Lemma append_assoc (a b c : string) : (a ++ b) ++ c = a ++ b ++ c.
Proof. induction a as [|x a IH]; simpl; [reflexivity | now rewrite IH]. Qed.

Lemma append_nil_r (a : string) : a ++ EmptyString = a.
Proof. induction a as [|x a IH]; simpl; [reflexivity | now rewrite IH]. Qed.

Lemma length_append (a b : string) :
  String.length (a ++ b) = String.length a + String.length b.
Proof. induction a as [|x a IH]; simpl; [reflexivity | now rewrite IH]. Qed.

Lemma contains_refl (s : string) : contains s s.
Proof. exists EmptyString, EmptyString. simpl. now rewrite append_nil_r. Qed.

Lemma contains_append (s sub before after : string) :
  contains s sub -> contains (before ++ s ++ after) sub.
Proof.
  intros (b & a & ->). exists (before ++ b), (a ++ after).
  now rewrite !append_assoc.
Qed.

Lemma Error_convert fmt_v_type fmt_v_raw fmt_no_operand err operand :
  Error fmt_v_type fmt_v_raw fmt_no_operand (Errorf_convert err operand)
  = "convert introspection type to AST type: "
    ++ Error fmt_v_type fmt_v_raw fmt_no_operand err ++ nl ++ fmt_v_type operand.
Proof. reflexivity. Qed.

(** ** The resolver *)

(** Induction along the chain of [OfType]. *)
Lemma chain_ind (P : introspectedType -> Prop) :
  (forall kind name, P (mkIntrospectedType kind name None)) ->
  (forall kind name inner, P inner -> P (mkIntrospectedType kind name (Some inner))) ->
  forall typ, P typ.
Proof.
  intros Hleaf Hwrap. fix IH 1. intros [kind name [inner|]].
  - apply Hwrap, IH.
  - apply Hleaf.
Qed.

Lemma in_chain_inv node kind name ofType :
  in_chain node (mkIntrospectedType kind name ofType) ->
  node = mkIntrospectedType kind name ofType
  \/ exists inner, ofType = Some inner /\ in_chain node inner.
Proof.
  intros H. inversion H; subst.
  - now left.
  - right. eauto.
Qed.

(** C10: a node without inner reference and with a name resolves to that name
    as a plain named type, whatever its kind: NON_NULL, LIST and unknown kinds
    included, no "type kind unknown" error arises. *)
Theorem leaf_resolves_whatever_its_kind (kind : introspectionTypeKind) (name : string) :
  introspectionTypeToAstType (Some (mkIntrospectedType kind (Some name) None))
  = Ok (mkType name None false).
Proof. reflexivity. Qed.

(** C8: the code at a leaf that has no name, alone or under any nesting of
    NON_NULL and LIST: [*typ.Name] dereferences nil and the resolver panics;
    it returns no error. *)
Theorem nameless_leaf_panics (ws : list wrapper) (kind : introspectionTypeKind) :
  introspectionTypeToAstType
    (Some (wrap_chain ws (mkIntrospectedType kind None None))) = Panic.
Proof.
  induction ws as [|w ws IH]; [reflexivity|].
  simpl in *. destruct w; simpl; now rewrite IH.
Qed.

(** At the outermost node the error is the plain one. *)
Lemma unknown_wrapper_kind_at_top (kind : introspectionTypeKind)
    (name : option string) (inner : introspectedType) :
  kind <> NON_NULL -> kind <> LIST ->
  introspectionTypeToAstType (Some (mkIntrospectedType kind name (Some inner)))
  = Err (Errorf_kind_unknown kind).
Proof.
  intros Hnn Hl. cbn.
  apply String.eqb_neq in Hnn, Hl. now rewrite Hnn, Hl.
Qed.

(** C7: a reference that contains a node with an inner reference and a kind
    other than NON_NULL and LIST fails to resolve; the innermost wrapped error
    is "type kind unknown: <kind>" for the kind of such a node, and the message
    of the returned error contains that text. *)
Theorem unknown_wrapper_kind_fails (typ node : introspectedType) :
  in_chain node typ -> unknown_wrapper node ->
  exists bad e,
    in_chain bad typ /\ unknown_wrapper bad
    /\ introspectionTypeToAstType (Some typ) = Err e
    /\ root_cause e = Errorf_kind_unknown (Kind bad)
    /\ forall fmt_v_type fmt_v_raw fmt_no_operand,
         contains (Error fmt_v_type fmt_v_raw fmt_no_operand e)
                  ("type kind unknown: " ++ Kind bad).
Proof.
  revert node. induction typ as [kind name | kind name inner IH] using chain_ind;
    intros node Hin Hbad.
  - apply in_chain_inv in Hin as [-> | (inner & Heq & _)]; [|discriminate].
    destruct Hbad as [Hof _]. now elim Hof.
  - simpl.
    destruct (String.eqb_spec kind NON_NULL) as [Hnn | Hnn];
      [| destruct (String.eqb_spec kind LIST) as [Hl | Hl]].
    3: { exists (mkIntrospectedType kind name (Some inner)), (Errorf_kind_unknown kind).
         repeat split; try easy.
         - constructor.
         - intros. apply contains_refl. }
    all: apply in_chain_inv in Hin as [-> | (inner' & Heq & Hin)];
      [ destruct Hbad as (_ & H1 & H2); simpl in *; congruence | ].
    all: injection Heq as <-.
    all: destruct (IH node Hin Hbad) as (bad & e & Hbin & Hb & Hres & Hroot & Htext).
    all: simpl in Hres; rewrite Hres.
    all: exists bad, (Errorf_convert e (Some inner)).
    all: repeat split; try easy; try (now constructor); try apply Hb.
    all: intros; rewrite Error_convert; apply contains_append, Htext.
Qed.

Lemma unknown_wrapper_kind_fails_witness :
  exists bad e,
    in_chain bad (mkIntrospectedType NON_NULL None (Some bogus_reference))
    /\ unknown_wrapper bad
    /\ introspectionTypeToAstType
         (Some (mkIntrospectedType NON_NULL None (Some bogus_reference))) = Err e
    /\ root_cause e = Errorf_kind_unknown (Kind bad)
    /\ forall fmt_v_type fmt_v_raw fmt_no_operand,
         contains (Error fmt_v_type fmt_v_raw fmt_no_operand e)
                  ("type kind unknown: " ++ Kind bad).
Proof.
  apply (unknown_wrapper_kind_fails
           (mkIntrospectedType NON_NULL None (Some bogus_reference)) bogus_reference).
  - constructor. constructor.
  - repeat split; discriminate.
Defined.

(** The marker of the expression implied by a chain is set exactly when the
    outermost wrapper is NON_NULL. *)
Lemma non_null_implied (ws : list wrapper) (name : string) :
  non_null (implied_expression ws name)
  = match ws with WNonNull :: _ => true | _ => false end.
Proof. destruct ws as [|[|] ws]; reflexivity. Qed.

(** Without a NON_NULL directly around a NON_NULL, the implied text has one
    sign per wrapper. *)
Lemma implied_sdl_nesting_text (ws : list wrapper) (name : string) :
  doubled_non_null ws = false -> implied_sdl ws name = nesting_text ws name.
Proof.
  unfold implied_sdl. induction ws as [|w ws IH]; intros Hd.
  - unfold render. simpl. apply append_nil_r.
  - destruct w.
    + assert (Hinner : doubled_non_null ws = false /\
                       non_null (implied_expression ws name) = false).
      { rewrite non_null_implied. destruct ws as [|[|] ws']; simpl in *; auto.
        discriminate. }
      destruct Hinner as [Hd' Hnn]. specialize (IH Hd').
      change (nesting_text (WNonNull :: ws) name) with (nesting_text ws name ++ "!").
      rewrite <- IH. unfold render. rewrite Hnn, append_nil_r. reflexivity.
    + assert (Hd' : doubled_non_null ws = false) by (destruct ws; exact Hd).
      specialize (IH Hd').
      change (nesting_text (WList :: ws) name) with ("[" ++ nesting_text ws name ++ "]").
      rewrite <- IH. unfold render at 1. cbn [implied_expression body non_null].
      apply append_nil_r.
Qed.

(** [String] reads the name first: on a type with a name the element is not
    looked at. *)
Lemma Type_String_named (n : string) (elem : option Type_) (b : bool) :
  n <> EmptyString ->
  Type_String (mkType n elem b) = Returned (n ++ if b then "!" else EmptyString).
Proof.
  intros Hn. cbn [Type_String].
  destruct (String.eqb_spec n EmptyString) as [->|_]; [now elim Hn | reflexivity].
Qed.

(** The resolver on a chain of wrappers around a named leaf: the type it
    returns renders as the implied expression does, with either marker. *)
Lemma resolve_chain_of (ws : list wrapper) (name : string) (typ : introspectedType) :
  chain_of ws name typ ->
  name <> EmptyString ->
  exists t,
    introspectionTypeToAstType_at typ = Ok t
    /\ NonNull t = non_null (implied_expression ws name)
    /\ forall b, Type_String (mkType (NamedType t) (Elem t) b)
                 = Returned (body (implied_expression ws name)
                             ++ if b then "!" else EmptyString).
Proof.
  intros Hchain Hn.
  induction Hchain as [kind name | w ws name wname inner Hchain IH].
  - exists (mkType name None false). repeat split.
    intros b. now apply Type_String_named.
  - destruct (IH Hn) as (t & Hres & Hnn & Hstr).
    destruct w; cbn [wrapper_kind introspectionTypeToAstType_at]; rewrite Hres.
    + rewrite String.eqb_refl.
      exists (mkType (NamedType t) (Elem t) true). repeat split. exact Hstr.
    + replace (String.eqb LIST NON_NULL) with false by reflexivity.
      rewrite String.eqb_refl.
      exists (mkType EmptyString (Some t) false). repeat split.
      intros b. cbn [NamedType Elem implied_expression body Type_String].
      replace (String.eqb EmptyString EmptyString) with true by reflexivity.
      cbn [negb].
      destruct t as [n e nn]. cbn [NamedType Elem NonNull] in *.
      rewrite (Hstr nn), Hnn. unfold render.
      now rewrite !append_assoc.
Qed.

Lemma chain_of_wrap_chain (ws : list wrapper) (kind : introspectionTypeKind)
    (name : string) :
  chain_of ws name (wrap_chain ws (mkIntrospectedType kind (Some name) None)).
Proof. induction ws as [|w ws IH]; cbn [wrap_chain]; now constructor. Qed.

(** C2: resolving a chain of wrappers around a named leaf and rendering the
    result gives the nesting the chain implies, in the same order: NON_NULL
    marks the current expression, LIST wraps it as the element of a list; when
    no NON_NULL stands directly around a NON_NULL this is one exclamation mark
    per NON_NULL and one pair of brackets per LIST.  Non-null list of non-null
    String gives [String!]! and list of non-null list of String gives
    [[String]!]. *)
Theorem chain_renders_its_nesting :
  (forall (ws : list wrapper) (name : string) (typ : introspectedType),
     chain_of ws name typ ->
     name <> EmptyString ->
     exists t,
       introspectionTypeToAstType (Some typ) = Ok t
       /\ Type_String t = Returned (implied_sdl ws name)
       /\ (doubled_non_null ws = false ->
           Type_String t = Returned (nesting_text ws name)))
  /\ resolved_text
       (Some (mkIntrospectedType NON_NULL None
         (Some (mkIntrospectedType LIST None
           (Some (mkIntrospectedType NON_NULL None
             (Some (mkIntrospectedType "SCALAR" (Some "String") None))))))))
     = Ok "[String!]!"
  /\ resolved_text
       (Some (mkIntrospectedType LIST None
         (Some (mkIntrospectedType NON_NULL None
           (Some (mkIntrospectedType LIST None
             (Some (mkIntrospectedType "SCALAR" (Some "String") None))))))))
     = Ok "[[String]!]".
Proof.
  split; [|split; reflexivity].
  intros ws name typ Hchain Hn.
  destruct (resolve_chain_of ws name typ Hchain Hn) as (t & Hres & Hnn & Hstr).
  exists t. split; [exact Hres|].
  assert (Hs : Type_String t = Returned (implied_sdl ws name)).
  { destruct t as [n e nn]. cbn [NamedType Elem NonNull] in *.
    rewrite (Hstr nn), Hnn. reflexivity. }
  split; [exact Hs|].
  intros Hd. rewrite Hs. now rewrite implied_sdl_nesting_text.
Qed.

Lemma chain_renders_its_nesting_witness :
  exists t,
    introspectionTypeToAstType
      (Some (wrap_chain [WNonNull; WList; WNonNull] String_leaf)) = Ok t
    /\ Type_String t = Returned "[String!]!".
Proof.
  destruct (proj1 chain_renders_its_nesting [WNonNull; WList; WNonNull] "String"
                  (wrap_chain [WNonNull; WList; WNonNull] String_leaf))
    as (t & Hres & Hs & _).
  - apply chain_of_wrap_chain.
  - discriminate.
  - exists t. split; [exact Hres | exact Hs].
Defined.

(** ** Loops and builders *)

Lemma and_then_done (p : printed) :
  and_then p (fun sb => Returned (sb, None)) = p.
Proof. destruct p as [[sb [err|]]|]; reflexivity. Qed.

Lemma each_app {A : Type} (body : Builder -> A -> printed) (xs ys : list A)
    (sb : Builder) :
  each body (xs ++ ys) sb = and_then (each body xs sb) (each body ys).
Proof.
  revert sb. induction xs as [|x xs IH]; intros sb; [reflexivity|].
  cbn [each app]. destruct (body sb x) as [[sb' [err|]]|]; cbn [and_then]; auto.
Qed.

Lemma each_single {A : Type} (body : Builder -> A -> printed) (x : A) (sb : Builder) :
  each body [x] sb = body sb x.
Proof. cbn [each]. apply and_then_done. Qed.

(** [strings.HasPrefix] is true exactly on the texts that start with the
    prefix. *)
Lemma HasPrefix_begins_with (s pre : string) :
  HasPrefix s pre = true <-> begins_with s pre.
Proof.
  unfold HasPrefix, begins_with. revert s.
  induction pre as [|c pre IH]; intros s.
  - split; [intros _; now exists s | now destruct s].
  - destruct s as [|d s]; cbn [String.prefix].
    + split; [discriminate | intros (rest & H); discriminate].
    + destruct (ascii_dec c d) as [->|Hcd].
      * rewrite IH. split; intros (rest & H); exists rest.
        -- cbn. now rewrite H.
        -- cbn in H. now injection H.
      * split; [discriminate|]. intros (rest & H). cbn in H.
        injection H as H1 _. congruence.
Qed.

Lemma Join_contains (elems : list string) (sep m : string) :
  In m elems -> contains (Join elems sep) m.
Proof.
  induction elems as [|x rest IH]; [easy|]. intros [->|Hin].
  - destruct rest as [|y rest]; [apply contains_refl|].
    exists EmptyString, (sep ++ Join (y :: rest) sep). reflexivity.
  - destruct rest as [|y rest]; [easy|].
    change (Join (x :: y :: rest) sep) with (x ++ sep ++ Join (y :: rest) sep).
    destruct (IH Hin) as (b & a & ->).
    exists (x ++ sep ++ b), a. now rewrite !append_assoc.
Qed.

(** ** The printer *)

Section PrinterProperties.

Variable Unmarshal_possibleTypes : RawMessage -> result (list (option introspectedType)).
Variable Unmarshal_enumValues : RawMessage -> result (list (option EnumValueDefinition)).

Local Abbreviation printType' := (printType Unmarshal_possibleTypes Unmarshal_enumValues).
Local Abbreviation printTypes' := (printTypes Unmarshal_possibleTypes Unmarshal_enumValues).
Local Abbreviation printSchema' := (printSchema Unmarshal_possibleTypes Unmarshal_enumValues).

Lemma printType_meta (typ : introspectionTypeDefinition) (wb : bool) (sb : Builder) :
  begins_with (typ_Name typ) "__" -> printType' wb sb typ = Returned (sb, None).
Proof.
  intros H. apply HasPrefix_begins_with in H.
  unfold printType. now rewrite H.
Qed.

Lemma printTypes_without (typ : introspectionTypeDefinition) (wb : bool)
    (pre post : list introspectionTypeDefinition) (sb : Builder) :
  (forall sb', printType' wb sb' typ = Returned (sb', None)) ->
  printTypes' sb (pre ++ typ :: post) wb = printTypes' sb (pre ++ post) wb.
Proof.
  intros Hskip. unfold printTypes. rewrite !each_app.
  destruct (each _ pre sb) as [[sb' [err|]]|]; cbn [and_then each]; auto.
  now rewrite Hskip.
Qed.

(** C6: a type definition whose name begins with "__" is skipped, with the
    flag set or not: the printer and the conversion give what they give on
    the schema without that definition. *)
Theorem meta_types_never_printed (typ : introspectionTypeDefinition)
    (withoutBuiltins : bool) :
  begins_with (typ_Name typ) "__" ->
  forall pre post,
    (forall sb, printTypes' sb (pre ++ typ :: post) withoutBuiltins
                = printTypes' sb (pre ++ post) withoutBuiltins)
    /\ (forall directives,
          printSchema' (mkSchema (pre ++ typ :: post) directives) withoutBuiltins
          = printSchema' (mkSchema (pre ++ post) directives) withoutBuiltins).
Proof.
  intros Hname pre post.
  assert (Hskip : forall sb, printTypes' sb (pre ++ typ :: post) withoutBuiltins
                             = printTypes' sb (pre ++ post) withoutBuiltins).
  { intros sb. apply printTypes_without. intros sb'. now apply printType_meta. }
  split; [exact Hskip|].
  intros directives. unfold printSchema. cbn [Types Directives].
  destruct (printDirectives _ directives withoutBuiltins) as [[sb err]|]; auto.
  now rewrite Hskip.
Qed.


Variable exchange : BuildClientSchemaOptions -> result introspectionResults.

(** C3: when the decoded response holds GraphQL errors the conversion
    returns the empty text and an error, whatever schema came with them; the
    message of the error is the fixed prefix followed by the messages joined
    by commas, and so contains each of them. *)
Theorem graphql_errors_fail_the_conversion (options : BuildClientSchemaOptions)
    (schemaResponse : introspectionResults) :
  exchange options = Ok schemaResponse ->
  Errors schemaResponse <> [] ->
  exists err,
    BuildClientSchemaWithOptions Unmarshal_possibleTypes Unmarshal_enumValues
                                 exchange options
    = Returned (EmptyString, Some err)
    /\ forall fmt_v_type fmt_v_raw fmt_no_operand,
         Error fmt_v_type fmt_v_raw fmt_no_operand err
         = "encountered the following GraphQL errors: "
           ++ Join (List.map Message (Errors schemaResponse)) ","
         /\ forall e, In e (Errors schemaResponse) ->
              contains (Error fmt_v_type fmt_v_raw fmt_no_operand err) (Message e).
Proof.
  intros Hex Herrs. unfold BuildClientSchemaWithOptions. rewrite Hex.
  destruct (Errors schemaResponse) as [|e0 errs] eqn:E; [now elim Herrs|].
  cbn [List.length Nat.eqb negb].
  eexists. split; [reflexivity|].
  intros f1 f2 f3. cbn [Error]. split; [reflexivity|].
  intros e Hin.
  destruct (Join_contains (List.map Message (e0 :: errs)) "," (Message e))
    as (before & after & Hjoin); [now apply in_map|].
  exists ("encountered the following GraphQL errors: " ++ before), after.
  now rewrite Hjoin, append_assoc.
Qed.

End PrinterProperties.

Lemma meta_types_never_printed_witness :
  printTypes no_possibleTypes no_enumValues EmptyString
             ([String_scalar] ++ meta_type :: [String_object]) true
  = printTypes no_possibleTypes no_enumValues EmptyString
               ([String_scalar] ++ [String_object]) true.
Proof.
  apply (meta_types_never_printed no_possibleTypes no_enumValues meta_type true).
  exists "Type". reflexivity.
Defined.

Lemma graphql_errors_fail_the_conversion_witness :
  exists err,
    BuildClientSchemaWithOptions no_possibleTypes no_enumValues
                                 (fun _ => Ok failed_response) post_options
    = Returned (EmptyString, Some err)
    /\ Error (fun _ => EmptyString) (fun raw => raw) (fun s => s) err
       = "encountered the following GraphQL errors: not allowed,too deep".
Proof.
  destruct (graphql_errors_fail_the_conversion no_possibleTypes no_enumValues
              (fun _ => Ok failed_response) post_options failed_response)
    as (err & Hret & Htext).
  - reflexivity.
  - discriminate.
  - exists err. split; [exact Hret|].
    exact (proj1 (Htext (fun _ => EmptyString) (fun raw => raw) (fun s => s))).
Defined.

(** ** What a printer leaves in the builder *)

Lemma length_WriteString (sb s : string) :
  String.length (WriteString sb s) = String.length sb + String.length s.
Proof. apply length_append. Qed.

Lemma length_printDescription (sb description : string) :
  String.length sb <= String.length (printDescription sb description).
Proof.
  unfold printDescription. destruct (negb _); [|lia].
  rewrite !length_WriteString. lia.
Qed.

Lemma length_write_separated (sep : string) (xs : list string) (sb : Builder) :
  String.length sb <= String.length (write_separated sep xs sb).
Proof.
  revert sb. induction xs as [|x xs IH]; intros sb; cbn [write_separated]; [lia|].
  etransitivity; [|apply IH].
  destruct xs; rewrite ?length_WriteString; lia.
Qed.

Lemma grows_le (sb0 sb : Builder) (p : printed) :
  String.length sb0 <= String.length sb -> grows sb p -> grows sb0 p.
Proof. destruct p as [[sb' err]|]; cbn [grows]; [lia | trivial]. Qed.

Lemma grows_and_then (sb : Builder) (p : printed) (k : Builder -> printed) :
  grows sb p -> (forall sb', grows sb' (k sb')) -> grows sb (and_then p k).
Proof.
  intros Hp Hk. destruct p as [[sb' [err|]]|]; cbn [and_then]; auto.
  apply (grows_le sb sb'); [exact Hp | apply Hk].
Qed.

Lemma grows_each {A : Type} (body : Builder -> A -> printed) :
  (forall sb x, grows sb (body sb x)) ->
  forall xs sb, grows sb (each body xs sb).
Proof.
  intros Hbody xs. induction xs as [|x xs IH]; intros sb; cbn [each].
  - cbn [grows]. lia.
  - apply grows_and_then; [apply Hbody | exact IH].
Qed.

Ltac longer :=
  cbn [grows]; rewrite ?length_WriteString;
  repeat match goal with
         | |- context [printDescription ?sb ?d] =>
           let H := fresh in
           pose proof (length_printDescription sb d) as H;
           generalize dependent (printDescription sb d); intros
         | |- context [write_separated ?sep ?xs ?sb] =>
           let H := fresh in
           pose proof (length_write_separated sep xs sb) as H;
           generalize dependent (write_separated sep xs sb); intros
         end;
  rewrite ?length_WriteString in *; try lia.

Lemma grows_print_input_value indent description_of sb arg :
  grows sb (print_input_value indent description_of sb arg).
Proof.
  unfold print_input_value.
  destruct (resolved_text _) as [s|err|]; destruct (description_of arg); longer.
Qed.

Lemma grows_print_arguments indent close description_of args sb :
  grows sb (print_arguments indent close description_of args sb).
Proof.
  unfold print_arguments. destruct (Nat.ltb _ _); [|longer].
  apply grows_and_then.
  - eapply grows_le; [|apply grows_each, grows_print_input_value]. longer.
  - intros sb'. longer.
Qed.





Lemma containsStr_In (needle : string) (hay : list string) :
  containsStr needle hay = true <-> In needle hay.
Proof.
  induction hay as [|s rest IH]; cbn [containsStr In]; [easy|].
  destruct (String.eqb_spec needle s) as [->|Hne]; [tauto|].
  rewrite IH. split; [tauto | intros [H|H]; [congruence | exact H]].
Qed.

Section BuiltinExclusion.

Variable Unmarshal_possibleTypes : RawMessage -> result (list (option introspectedType)).
Variable Unmarshal_enumValues : RawMessage -> result (list (option EnumValueDefinition)).

Local Abbreviation printTypes_switch' :=
  (printTypes_switch Unmarshal_possibleTypes Unmarshal_enumValues).
Local Abbreviation printType' := (printType Unmarshal_possibleTypes Unmarshal_enumValues).
Local Abbreviation printTypes' := (printTypes Unmarshal_possibleTypes Unmarshal_enumValues).




End BuiltinExclusion.



(** ** Where the code departs from its documentation *)

(** Whatever the printers return, the conversion of a response without
    GraphQL errors returns a nil error. *)
Lemma conversion_error_is_nil
    (Unmarshal_possibleTypes : RawMessage -> result (list (option introspectedType)))
    (Unmarshal_enumValues : RawMessage -> result (list (option EnumValueDefinition)))
    (exchange : BuildClientSchemaOptions -> result introspectionResults)
    (options : BuildClientSchemaOptions) (schemaResponse : introspectionResults)
    (text : string) (err : option error) :
  exchange options = Ok schemaResponse ->
  Errors schemaResponse = [] ->
  BuildClientSchemaWithOptions Unmarshal_possibleTypes Unmarshal_enumValues
                               exchange options = Returned (text, err) ->
  err = None.
Proof.
  unfold BuildClientSchemaWithOptions. intros -> ->. cbn [List.length Nat.eqb negb].
  destruct (printSchema _ _ _ _); [|discriminate].
  intros H. now injection H.
Qed.

(** C1: the code on a schema whose one field has a type that does not resolve,
    and on a schema with a type of unhandled kind: [printTypes] returns the
    error, [printSchema] drops it, and the conversion returns the text written
    up to the failure together with a nil error. *)
Theorem printer_error_is_dropped :
  printTypes no_possibleTypes no_enumValues EmptyString (Types bogus_schema) false
  = Returned ("type Query {" ++ nl ++ tab ++ "hello",
              Some (Errorf_convert (Errorf_kind_unknown "BOGUS")
                                   (Some bogus_reference)))
  /\ BuildClientSchemaWithOptions no_possibleTypes no_enumValues
       (fun _ => Ok (mkResults [] bogus_schema)) post_options
     = Returned ("type Query {" ++ nl ++ tab ++ "hello", None)
  /\ printTypes no_possibleTypes no_enumValues EmptyString (Types unhandled_schema)
                false
     = Returned (EmptyString, Some (Errorf_not_handling "FRAGMENT"))
  /\ BuildClientSchemaWithOptions no_possibleTypes no_enumValues
       (fun _ => Ok (mkResults [] unhandled_schema)) post_options
     = Returned (EmptyString, None).
Proof. repeat split; reflexivity. Qed.

(** C4: the code on an object, an interface and an input object, each
    described as "about T" with one field described as "about f": before the
    field the object prints the field's description; the interface and the
    input object print the description of the type. *)
Theorem field_description_by_kind :
  printTypes no_possibleTypes no_enumValues EmptyString [described_object] false
  = Returned (quote3 ++ "about T" ++ quote3 ++ nl
              ++ "type T {" ++ nl
              ++ quote3 ++ "about f" ++ quote3 ++ nl
              ++ tab ++ "f: String" ++ nl
              ++ "}" ++ nl ++ nl, None)
  /\ printTypes no_possibleTypes no_enumValues EmptyString [described_interface] false
     = Returned (quote3 ++ "about T" ++ quote3 ++ nl
                 ++ "interface T {" ++ nl
                 ++ quote3 ++ "about T" ++ quote3 ++ nl
                 ++ tab ++ "f: String" ++ nl
                 ++ "}" ++ nl ++ nl, None)
  /\ printTypes no_possibleTypes no_enumValues EmptyString [described_input] false
     = Returned (quote3 ++ "about T" ++ quote3 ++ nl
                 ++ "input T {" ++ nl
                 ++ quote3 ++ "about T" ++ quote3 ++ nl
                 ++ tab ++ "f: String" ++ nl
                 ++ "}" ++ nl ++ nl, None).
Proof. repeat split; reflexivity. Qed.

(** * Further properties *)

(** ** The resolver, case by case *)

Lemma chain_of_wraps (ws : list wrapper) (name : string) (typ : introspectedType) :
  chain_of ws name typ <->
  exists kind, wraps ws (mkIntrospectedType kind (Some name) None) typ.
Proof.
  split.
  - induction 1 as [kind name | w ws name wname inner _ (kind & IH)].
    + exists kind. constructor.
    + exists kind. now constructor.
  - intros (kind & H). remember (mkIntrospectedType kind (Some name) None) as leaf.
    induction H as [node | w ws node wname inner _ IH]; subst.
    + constructor.
    + constructor. now apply IH.
Qed.

(** What the resolver does at each node of a reference. *)
Lemma resolve_cases (typ : introspectedType) :
  (exists ws name t, chain_of ws name typ /\ introspectionTypeToAstType_at typ = Ok t)
  \/ (exists ws kind, wraps ws (mkIntrospectedType kind None None) typ
                      /\ introspectionTypeToAstType_at typ = Panic)
  \/ (exists ws bad e, wraps ws bad typ /\ unknown_wrapper bad
                       /\ introspectionTypeToAstType_at typ = Err e
                       /\ root_cause e = Errorf_kind_unknown (Kind bad)
                       /\ error_depth e = List.length ws).
Proof.
  induction typ as [kind [name|] | kind name inner IH] using chain_ind.
  - left. exists [], name. eexists. split; [constructor | reflexivity].
  - right. left. exists [], kind. split; [constructor | reflexivity].
  - cbn [introspectionTypeToAstType_at].
    destruct (String.eqb_spec kind NON_NULL) as [->|Hnn];
      [|destruct (String.eqb_spec kind LIST) as [->|Hl]].
    3: { right. right.
         exists [], (mkIntrospectedType kind name (Some inner)), (Errorf_kind_unknown kind).
         repeat split; try easy. constructor. }
    all: destruct IH as [(ws & n & t & Hc & ->)
                        | [(ws & k & Hw & ->) | (ws & bad & e & Hw & Hb & -> & Hr & Hd)]].
    + left. exists (WNonNull :: ws), n. eexists. split; [|reflexivity].
      now apply (chain_of_wrapper WNonNull).
    + right. left. exists (WNonNull :: ws), k. split; [|reflexivity].
      now apply (wraps_wrapper WNonNull).
    + right. right. exists (WNonNull :: ws), bad. eexists.
      repeat split; try apply Hb; try exact Hr.
      * now apply (wraps_wrapper WNonNull).
      * cbn. now rewrite Hd.
    + left. exists (WList :: ws), n. eexists. split; [|reflexivity].
      now apply (chain_of_wrapper WList).
    + right. left. exists (WList :: ws), k. split; [|reflexivity].
      now apply (wraps_wrapper WList).
    + right. right. exists (WList :: ws), bad. eexists.
      repeat split; try apply Hb; try exact Hr.
      * now apply (wraps_wrapper WList).
      * cbn. now rewrite Hd.
Qed.

(** X1: the resolver succeeds exactly on the references that are NON_NULL and
    LIST wrappers around a leaf with a name. *)
Theorem resolver_succeeds_exactly_on_chains (typ : introspectedType) :
  (exists t, introspectionTypeToAstType (Some typ) = Ok t)
  <-> exists ws name, chain_of ws name typ.
Proof.
  cbn [introspectionTypeToAstType]. split.
  - intros (t & Ht).
    destruct (resolve_cases typ)
      as [(ws & n & _ & Hc & _) | [(ws & k & _ & H) | (ws & bad & e & _ & _ & H & _)]].
    + now exists ws, n.
    + congruence.
    + congruence.
  - intros (ws & name & Hc).
    induction Hc as [kind name | w ws name wname inner _ (t & IH)].
    + eexists. reflexivity.
    + destruct w; cbn [wrapper_kind introspectionTypeToAstType_at]; rewrite IH.
      * rewrite String.eqb_refl. eexists. reflexivity.
      * replace (String.eqb LIST NON_NULL) with false by reflexivity.
        rewrite String.eqb_refl. eexists. reflexivity.
Qed.

(** X2: on a pointer that is not nil the resolver panics exactly when the
    reference is NON_NULL and LIST wrappers around a leaf without a name. *)
Theorem resolver_panics_exactly_on_nameless_leaves (typ : introspectedType) :
  introspectionTypeToAstType (Some typ) = Panic
  <-> exists ws kind, wraps ws (mkIntrospectedType kind None None) typ.
Proof.
  cbn [introspectionTypeToAstType]. split.
  - intros Hp.
    destruct (resolve_cases typ)
      as [(ws & n & t & _ & H) | [(ws & k & Hw & _) | (ws & bad & e & _ & _ & H & _)]].
    + congruence.
    + now exists ws, k.
    + congruence.
  - intros (ws & kind & Hw).
    remember (mkIntrospectedType kind None None) as leaf.
    induction Hw as [node | w ws node wname inner _ IH]; subst; [reflexivity|].
    destruct w; cbn [wrapper_kind introspectionTypeToAstType_at]; rewrite (IH eq_refl).
    + now rewrite String.eqb_refl.
    + replace (String.eqb LIST NON_NULL) with false by reflexivity.
      now rewrite String.eqb_refl.
Qed.

(** X3: when the resolver returns an error, the reference is NON_NULL and LIST
    wrappers around a node with an inner reference and another kind; the
    innermost error names the kind of that node, the outermost of its sort,
    and is wrapped once for each wrapper above it. *)
Theorem resolver_error_names_outermost_unknown_kind
    (typ : introspectedType) (e : error) :
  introspectionTypeToAstType (Some typ) = Err e ->
  exists ws bad,
    wraps ws bad typ /\ unknown_wrapper bad
    /\ root_cause e = Errorf_kind_unknown (Kind bad)
    /\ error_depth e = List.length ws.
Proof.
  cbn [introspectionTypeToAstType]. intros He.
  destruct (resolve_cases typ)
    as [(ws & n & t & _ & H) | [(ws & k & _ & H) | (ws & bad & e' & Hw & Hb & H & Hr & Hd)]].
  - congruence.
  - congruence.
  - rewrite He in H. injection H as <-. now exists ws, bad.
Qed.

Lemma resolver_error_names_outermost_unknown_kind_witness :
  exists ws bad,
    wraps ws bad (mkIntrospectedType LIST None (Some bogus_reference))
    /\ unknown_wrapper bad
    /\ root_cause (Errorf_convert (Errorf_kind_unknown "BOGUS") (Some bogus_reference))
       = Errorf_kind_unknown (Kind bad)
    /\ error_depth (Errorf_convert (Errorf_kind_unknown "BOGUS") (Some bogus_reference))
       = List.length ws.
Proof.
  apply (resolver_error_names_outermost_unknown_kind
           (mkIntrospectedType LIST None (Some bogus_reference))).
  reflexivity.
Defined.

Lemma resolve_chain_shape (ws : list wrapper) (name : string) (typ : introspectedType) :
  chain_of ws name typ ->
  exists t,
    introspectionTypeToAstType_at typ = Ok t
    /\ leaf_name t = name
    /\ list_depth t = List.length (filter is_list_wrapper ws)
    /\ NonNull t = match ws with WNonNull :: _ => true | _ => false end.
Proof.
  induction 1 as [kind name | w ws name wname inner _ (t & Hres & Hname & Hdepth & _)].
  - eexists. repeat split.
  - destruct w; cbn [wrapper_kind introspectionTypeToAstType_at]; rewrite Hres.
    + rewrite String.eqb_refl. eexists. split; [reflexivity|].
      destruct t as [n [e|] nn]; repeat split; assumption.
    + replace (String.eqb LIST NON_NULL) with false by reflexivity.
      rewrite String.eqb_refl. eexists. split; [reflexivity|].
      repeat split; [exact Hname | cbn; now rewrite Hdepth].
Qed.

(** X4: on wrappers around a named leaf the resolver returns a type that
    keeps the name of the leaf at its bottom, has one list level for each LIST
    wrapper, and is marked non-null exactly when the outermost wrapper is
    NON_NULL. *)
Theorem resolver_keeps_name_and_list_depth
    (ws : list wrapper) (name : string) (typ : introspectedType) :
  chain_of ws name typ ->
  exists t,
    introspectionTypeToAstType (Some typ) = Ok t
    /\ leaf_name t = name
    /\ list_depth t = List.length (filter is_list_wrapper ws)
    /\ NonNull t = match ws with WNonNull :: _ => true | _ => false end.
Proof. apply resolve_chain_shape. Qed.

Lemma resolver_keeps_name_and_list_depth_witness :
  exists t,
    introspectionTypeToAstType
      (Some (wrap_chain [WList; WNonNull; WList] String_leaf)) = Ok t
    /\ leaf_name t = "String"
    /\ list_depth t = 2
    /\ NonNull t = false.
Proof.
  apply (resolver_keeps_name_and_list_depth [WList; WNonNull; WList] "String").
  apply chain_of_wrap_chain.
Defined.

(** X5: NON_NULL is a marker: a NON_NULL node around a reference that resolves
    to a type already marked non-null resolves to that same type, so a
    NON_NULL directly around a NON_NULL adds nothing. *)
Theorem non_null_is_idempotent
    (name1 name2 : option string) (inner : introspectedType) (t : Type_) :
  introspectionTypeToAstType
    (Some (mkIntrospectedType NON_NULL name2 (Some inner))) = Ok t ->
  NonNull t = true
  /\ introspectionTypeToAstType
       (Some (mkIntrospectedType NON_NULL name1
                (Some (mkIntrospectedType NON_NULL name2 (Some inner))))) = Ok t.
Proof.
  cbn. destruct (introspectionTypeToAstType_at inner) as [t0|e|]; try discriminate.
  intros H. injection H as <-. split; reflexivity.
Qed.

Lemma non_null_is_idempotent_witness :
  NonNull (mkType "String" None true) = true
  /\ introspectionTypeToAstType
       (Some (mkIntrospectedType NON_NULL None
                (Some (mkIntrospectedType NON_NULL None (Some String_leaf)))))
     = Ok (mkType "String" None true).
Proof.
  apply (non_null_is_idempotent None None String_leaf). reflexivity.
Defined.

(** ** Printers only append *)

Lemma WriteString_prefixed (p sb s : string) :
  WriteString (p ++ sb) s = p ++ WriteString sb s.
Proof. apply append_assoc. Qed.

Lemma printDescription_prefixed (p sb description : string) :
  printDescription (p ++ sb) description = p ++ printDescription sb description.
Proof.
  unfold printDescription. destruct (negb _); [|reflexivity].
  now rewrite !WriteString_prefixed.
Qed.

Lemma write_separated_prefixed (sep : string) (xs : list string) (p sb : string) :
  write_separated sep xs (p ++ sb) = p ++ write_separated sep xs sb.
Proof.
  revert sb. induction xs as [|x xs IH]; intros sb; cbn [write_separated]; [reflexivity|].
  destruct xs; rewrite ?WriteString_prefixed; apply IH.
Qed.

Lemma and_then_prefixed (p : string) (r : printed) (k : Builder -> printed) :
  (forall sb, k (p ++ sb) = prefixed p (k sb)) ->
  and_then (prefixed p r) k = prefixed p (and_then r k).
Proof. intros Hk. destruct r as [[sb [err|]]|]; cbn; auto. Qed.

Lemma each_prefixed {A : Type} (body : Builder -> A -> printed) (p : string) :
  (forall sb x, body (p ++ sb) x = prefixed p (body sb x)) ->
  forall xs sb, each body xs (p ++ sb) = prefixed p (each body xs sb).
Proof.
  intros Hbody xs. induction xs as [|x xs IH]; intros sb; cbn [each]; [reflexivity|].
  rewrite Hbody. now apply and_then_prefixed.
Qed.

Lemma print_input_value_prefixed indent description_of p sb arg :
  print_input_value indent description_of (p ++ sb) arg
  = prefixed p (print_input_value indent description_of sb arg).
Proof.
  unfold print_input_value.
  destruct (description_of arg); destruct (resolved_text _); cbn [prefixed];
    rewrite ?printDescription_prefixed, ?WriteString_prefixed; reflexivity.
Qed.

Lemma print_arguments_prefixed indent close description_of args p sb :
  print_arguments indent close description_of args (p ++ sb)
  = prefixed p (print_arguments indent close description_of args sb).
Proof.
  unfold print_arguments. destruct (Nat.ltb _ _); [|reflexivity].
  rewrite WriteString_prefixed, each_prefixed
    by (intros; apply print_input_value_prefixed).
  apply and_then_prefixed. intros sb'. cbn [prefixed].
  now rewrite WriteString_prefixed.
Qed.

Lemma print_field_prefixed description arg_description_of p sb field :
  print_field description arg_description_of (p ++ sb) field
  = prefixed p (print_field description arg_description_of sb field).
Proof.
  unfold print_field.
  rewrite printDescription_prefixed, WriteString_prefixed, print_arguments_prefixed.
  apply and_then_prefixed. intros sb'.
  destruct (resolved_text _); cbn [prefixed]; rewrite ?WriteString_prefixed; reflexivity.
Qed.

Lemma print_possible_prefixed possible p sb :
  print_possible possible (p ++ sb) = prefixed p (print_possible possible sb).
Proof.
  revert sb. induction possible as [|typ rest IH]; intros sb; cbn [print_possible];
    [reflexivity|].
  destruct (resolved_text typ); try reflexivity.
  destruct rest; rewrite ?WriteString_prefixed; apply IH.
Qed.

Lemma print_enum_value_prefixed p sb value :
  print_enum_value (p ++ sb) value = prefixed p (print_enum_value sb value).
Proof.
  destruct value; cbn [print_enum_value prefixed]; [|reflexivity].
  now rewrite printDescription_prefixed, WriteString_prefixed.
Qed.

Lemma printInterface_prefixed p sb typ :
  printInterface (p ++ sb) typ = prefixed p (printInterface sb typ).
Proof.
  unfold printInterface. destruct (negb _); [reflexivity|].
  rewrite WriteString_prefixed, each_prefixed by (intros; apply print_field_prefixed).
  apply and_then_prefixed. intros sb'. cbn [prefixed].
  now rewrite WriteString_prefixed.
Qed.

Lemma printDirective_prefixed wb p sb directive :
  printDirective wb (p ++ sb) directive = prefixed p (printDirective wb sb directive).
Proof.
  unfold printDirective. destruct (_ && _); [reflexivity|].
  rewrite printDescription_prefixed, WriteString_prefixed, print_arguments_prefixed.
  apply and_then_prefixed. intros sb'. cbn [prefixed].
  now rewrite !WriteString_prefixed, write_separated_prefixed, !WriteString_prefixed.
Qed.

Lemma printDirectives_prefixed directives wb p sb :
  printDirectives (p ++ sb) directives wb = prefixed p (printDirectives sb directives wb).
Proof. apply each_prefixed. intros. apply printDirective_prefixed. Qed.

Lemma prefixed_nil (r : printed) : prefixed EmptyString r = r.
Proof. destruct r as [[sb err]|]; reflexivity. Qed.

Lemma each_error_stops {A : Type} (body : Builder -> A -> printed)
    (xs ys : list A) (sb sb' : Builder) (err : error) :
  each body xs sb = Returned (sb', Some err) ->
  each body (xs ++ ys) sb = Returned (sb', Some err).
Proof. intros H. now rewrite each_app, H. Qed.

Lemma each_filter {A : Type} (body1 body2 : Builder -> A -> printed)
    (skipped : A -> bool) :
  (forall sb x, body1 sb x = if skipped x then Returned (sb, None) else body2 sb x) ->
  forall xs sb,
    each body1 xs sb = each body2 (filter (fun x => negb (skipped x)) xs) sb.
Proof.
  intros Hbody xs. induction xs as [|x xs IH]; intros sb; [reflexivity|].
  cbn [each filter]. rewrite Hbody. destruct (skipped x); cbn [negb and_then each].
  - apply IH.
  - destruct (body2 sb x) as [[sb' [err|]]|]; cbn [and_then]; auto.
Qed.

Lemma printDirective_flag (sb : Builder) (directive : introspectionDirectiveDefinition) :
  printDirective true sb directive
  = if builtin_directive directive then Returned (sb, None)
    else printDirective false sb directive.
Proof. unfold printDirective, builtin_directive. cbn [andb]. reflexivity. Qed.

Section PrinterComposition.

Variable Unmarshal_possibleTypes : RawMessage -> result (list (option introspectedType)).
Variable Unmarshal_enumValues : RawMessage -> result (list (option EnumValueDefinition)).

Local Abbreviation printTypes_switch' :=
  (printTypes_switch Unmarshal_possibleTypes Unmarshal_enumValues).
Local Abbreviation printType' := (printType Unmarshal_possibleTypes Unmarshal_enumValues).
Local Abbreviation printTypes' := (printTypes Unmarshal_possibleTypes Unmarshal_enumValues).
Local Abbreviation printSchema' := (printSchema Unmarshal_possibleTypes Unmarshal_enumValues).

Lemma printTypes_switch_prefixed p sb typ :
  printTypes_switch' (p ++ sb) typ = prefixed p (printTypes_switch' sb typ).
Proof.
  unfold printTypes_switch.
  repeat match goal with
         | |- context [if String.eqb ?a ?b then _ else _] => destruct (String.eqb a b)
         end.
  - assert (Hhead : forall s,
      (if Nat.ltb 0 (List.length (typ_Interfaces typ))
       then write_separated " & " (typ_Interfaces typ)
              (WriteString (WriteString (p ++ sb) s) "implements ")
       else WriteString (p ++ sb) s)
      = p ++ (if Nat.ltb 0 (List.length (typ_Interfaces typ))
              then write_separated " & " (typ_Interfaces typ)
                     (WriteString (WriteString sb s) "implements ")
              else WriteString sb s)).
    { intros s. destruct (Nat.ltb _ _);
        now rewrite ?WriteString_prefixed, ?write_separated_prefixed. }
    rewrite Hhead, WriteString_prefixed,
      each_prefixed by (intros; apply print_field_prefixed).
    apply and_then_prefixed. intros sb'. cbn [prefixed].
    now rewrite WriteString_prefixed.
  - rewrite WriteString_prefixed.
    destruct (Unmarshal_possibleTypes _); try reflexivity.
    apply print_possible_prefixed.
  - rewrite WriteString_prefixed.
    destruct (Unmarshal_enumValues _); try reflexivity.
    rewrite each_prefixed by (intros; apply print_enum_value_prefixed).
    apply and_then_prefixed. intros sb'. cbn [prefixed].
    now rewrite WriteString_prefixed.
  - cbn [prefixed]. now rewrite WriteString_prefixed.
  - rewrite WriteString_prefixed,
      each_prefixed by (intros; apply print_input_value_prefixed).
    apply and_then_prefixed. intros sb'. cbn [prefixed].
    now rewrite WriteString_prefixed.
  - rewrite printInterface_prefixed.
    destruct (printInterface sb typ) as [[sb' err]|]; reflexivity.
  - reflexivity.
Qed.

Lemma printType_prefixed wb p sb typ :
  printType' wb (p ++ sb) typ = prefixed p (printType' wb sb typ).
Proof.
  unfold printType. destruct (HasPrefix _ _); [reflexivity|].
  destruct (_ && _); [reflexivity|].
  rewrite printDescription_prefixed, printTypes_switch_prefixed.
  apply and_then_prefixed. intros sb'. cbn [prefixed].
  now rewrite !WriteString_prefixed.
Qed.

Lemma printTypes_prefixed types wb p sb :
  printTypes' (p ++ sb) types wb = prefixed p (printTypes' sb types wb).
Proof. apply each_prefixed. intros. apply printType_prefixed. Qed.

Lemma printType_flag (sb : Builder) (typ : introspectionTypeDefinition) :
  printType' true sb typ
  = if builtin_scalar typ then Returned (sb, None) else printType' false sb typ.
Proof.
  unfold printType, builtin_scalar. cbn [andb].
  destruct (HasPrefix _ _); [now destruct (_ && _)|].
  now destruct (_ && _).
Qed.

(** X6: the printers only append, and what they append does not depend on
    what the builder holds: printing into a builder gives its contents
    followed by what printing into an empty builder gives, with the same
    error or panic. *)
Theorem printers_only_append (sb : Builder)
    (directives : list introspectionDirectiveDefinition)
    (types : list introspectionTypeDefinition) (withoutBuiltins : bool) :
  printDirectives sb directives withoutBuiltins
  = prefixed sb (printDirectives EmptyString directives withoutBuiltins)
  /\ printTypes' sb types withoutBuiltins
     = prefixed sb (printTypes' EmptyString types withoutBuiltins).
Proof.
  split.
  - rewrite <- printDirectives_prefixed. now rewrite append_nil_r.
  - rewrite <- printTypes_prefixed. now rewrite append_nil_r.
Qed.

(** X7: the text [printSchema] returns is the text it returns for the
    directives alone followed by the text it returns for the types alone;
    the types are printed also after the directive printer returned an
    error. *)
Theorem printSchema_directives_then_types
    (types : list introspectionTypeDefinition)
    (directives : list introspectionDirectiveDefinition) (withoutBuiltins : bool) :
  printSchema' (mkSchema types directives) withoutBuiltins
  = bind (printSchema' (mkSchema [] directives) withoutBuiltins)
      (fun directives_text =>
         bind (printSchema' (mkSchema types []) withoutBuiltins)
           (fun types_text => Returned (directives_text ++ types_text))).
Proof.
  unfold printSchema. cbn [Types Directives].
  destruct (printDirectives EmptyString directives withoutBuiltins) as [[sb err]|];
    [|reflexivity].
  cbn [printTypes each printDirectives bind].
  fold (printTypes' sb types withoutBuiltins).
  fold (printTypes' EmptyString types withoutBuiltins).
  rewrite <- (append_nil_r sb) at 1. rewrite printTypes_prefixed.
  destruct (printTypes' EmptyString types withoutBuiltins) as [[sb' err']|];
    reflexivity.
Qed.

(** X8: the first error stops a printer: it returns that error with the text
    written up to it, whatever definitions follow in the list. *)
Theorem first_error_stops_the_printer (sb sb' : Builder) (err : error)
    (withoutBuiltins : bool) :
  (forall directives more,
     printDirectives sb directives withoutBuiltins = Returned (sb', Some err) ->
     printDirectives sb (directives ++ more) withoutBuiltins
     = Returned (sb', Some err))
  /\ (forall types more,
        printTypes' sb types withoutBuiltins = Returned (sb', Some err) ->
        printTypes' sb (types ++ more) withoutBuiltins = Returned (sb', Some err)).
Proof. split; intros xs ys H; now apply each_error_stops. Qed.

(** X9: type definitions are printed in the order of the list, one after the
    other: when a list of types prints without error, the text of that list
    followed by more types is its own text followed by the text of the
    others. *)
Theorem printTypes_concatenates (types more : list introspectionTypeDefinition)
    (withoutBuiltins : bool) (text : string) :
  printTypes' EmptyString types withoutBuiltins = Returned (text, None) ->
  printTypes' EmptyString (types ++ more) withoutBuiltins
  = prefixed text (printTypes' EmptyString more withoutBuiltins).
Proof.
  intros H. unfold printTypes in *. rewrite each_app, H. cbn [and_then].
  rewrite <- (append_nil_r text) at 1.
  apply each_prefixed. intros. apply printType_prefixed.
Qed.

(** X10: printing with the flag set is printing, with the flag unset, the
    schema without the directives named deprecated, include or skip and
    without the scalars named ID, Int, String, Float or Boolean. *)
Theorem withoutBuiltins_is_a_filter (schema : introspectionSchema) :
  printSchema' schema true = printSchema' (strip_builtins schema) false.
Proof.
  unfold printSchema, strip_builtins, printDirectives, printTypes.
  cbn [Types Directives].
  rewrite (each_filter (printDirective true) (printDirective false) builtin_directive)
    by apply printDirective_flag.
  destruct (each (printDirective false) _ _) as [[sb err]|]; [|reflexivity].
  now rewrite (each_filter (printType' true) (printType' false) builtin_scalar)
    by apply printType_flag.
Qed.

End PrinterComposition.

Lemma first_error_stops_the_printer_witness :
  printTypes no_possibleTypes no_enumValues EmptyString
             (Types bogus_schema ++ [String_scalar]) false
  = Returned ("type Query {" ++ nl ++ tab ++ "hello",
              Some (Errorf_convert (Errorf_kind_unknown "BOGUS")
                                   (Some bogus_reference))).
Proof.
  apply (first_error_stops_the_printer no_possibleTypes no_enumValues).
  reflexivity.
Defined.

Lemma printTypes_concatenates_witness :
  printTypes no_possibleTypes no_enumValues EmptyString
             ([String_scalar] ++ [String_scalar]) false
  = prefixed ("scalar String" ++ nl ++ nl)
      (printTypes no_possibleTypes no_enumValues EmptyString [String_scalar] false).
Proof.
  apply (printTypes_concatenates no_possibleTypes no_enumValues). reflexivity.
Defined.

(** ** Exclusion of builtin directives *)

Lemma printDirective_not_skipped (wb : bool) (sb : Builder)
    (directive : introspectionDirectiveDefinition) :
  wb && containsStr (directive_Name directive) excludeDirectives = false ->
  printDirective wb sb directive <> Returned (sb, None).
Proof.
  intros Hflag. unfold printDirective. rewrite Hflag.
  set (sb1 := WriteString (printDescription sb (directive_Description directive))
                          ("directive @" ++ directive_Name directive)).
  pose proof (grows_print_arguments tab ")" (fun arg => Some (arg_Description arg))
                                    (directive_Args directive) sb1) as Hg.
  assert (Hsb1 : String.length sb <= String.length sb1).
  { subst sb1. rewrite length_WriteString.
    pose proof (length_printDescription sb (directive_Description directive)). lia. }
  destruct (print_arguments _ _ _ _ sb1) as [[sb' [err|]]|]; cbn [and_then];
    try discriminate.
  intros Heq. injection Heq as Heq. apply (f_equal String.length) in Heq.
  rewrite !length_WriteString in Heq.
  pose proof (length_write_separated " | " (directive_Locations directive)
                                     (WriteString sb' " on ")) as Hsep.
  rewrite length_WriteString in Hsep. change (String.length nl) with 1 in Heq.
  cbn [grows] in Hg. lia.
Qed.

(** X11: with the flag set a directive is skipped if and only if its name is
    deprecated, include or skip; with the flag unset no directive is
    skipped. *)
Theorem directive_exclusion (directive : introspectionDirectiveDefinition)
    (sb : Builder) :
  (printDirectives sb [directive] true = Returned (sb, None)
   <-> In (directive_Name directive) excludeDirectives)
  /\ printDirectives sb [directive] false <> Returned (sb, None).
Proof.
  unfold printDirectives. rewrite !each_single. split; [split|].
  - intros Hskip.
    destruct (containsStr (directive_Name directive) excludeDirectives) eqn:Hc.
    + now apply containsStr_In.
    + exfalso. apply (printDirective_not_skipped true sb directive); [|exact Hskip].
      now rewrite Hc.
  - intros Hin. apply containsStr_In in Hin. unfold printDirective. now rewrite Hin.
  - now apply printDirective_not_skipped.
Qed.

(** X12: [containsStr] tells whether the needle is an element of the list. *)
Theorem containsStr_is_membership (needle : string) (hay : list string) :
  containsStr needle hay = true <-> In needle hay.
Proof. apply containsStr_In. Qed.

(** ** The text of each construct *)

Lemma write_separated_Join (sep : string) (xs : list string) (sb : Builder) :
  write_separated sep xs sb = sb ++ Join xs sep.
Proof.
  revert sb. induction xs as [|x xs IH]; intros sb.
  - cbn. now rewrite append_nil_r.
  - cbn [write_separated]. destruct xs as [|y xs].
    + reflexivity.
    + rewrite IH. unfold WriteString.
      change (Join (x :: y :: xs) sep) with (x ++ sep ++ Join (y :: xs) sep).
      now rewrite !append_assoc.
Qed.

Lemma printDescription_text (sb description : string) :
  printDescription sb description = sb ++ printDescription EmptyString description.
Proof.
  rewrite <- printDescription_prefixed. now rewrite append_nil_r.
Qed.

Lemma each_enum_values (vs : list EnumValueDefinition) (sb : Builder) :
  each print_enum_value (List.map Some vs) sb
  = Returned (sb ++ concat_text (List.map enum_value_text vs), None).
Proof.
  revert sb. induction vs as [|v vs IH]; intros sb.
  - cbn. now rewrite append_nil_r.
  - cbn [List.map each print_enum_value and_then]. rewrite IH.
    unfold WriteString, enum_value_text. cbn [concat_text].
    rewrite (printDescription_text sb). now rewrite !append_assoc.
Qed.

Lemma print_possible_Join (possible : list (option introspectedType))
    (rendered : list string) (sb : Builder) :
  List.map resolved_text possible = List.map Ok rendered ->
  print_possible possible sb = Returned (sb ++ Join rendered " | ", None).
Proof.
  revert rendered sb. induction possible as [|typ rest IH]; intros rendered sb H.
  - destruct rendered; [|discriminate]. cbn. now rewrite append_nil_r.
  - destruct rendered as [|r rendered]; [discriminate|].
    cbn [List.map] in H. injection H as Hr Hrest.
    cbn [print_possible]. rewrite Hr.
    destruct rest as [|typ' rest].
    + destruct rendered; [|discriminate]. reflexivity.
    + destruct rendered as [|r' rendered]; [discriminate|].
      rewrite (IH (r' :: rendered)) by exact Hrest.
      unfold WriteString.
      change (Join (r :: r' :: rendered) " | ")
        with (r ++ " | " ++ Join (r' :: rendered) " | ").
      now rewrite !append_assoc.
Qed.

Lemma each_arguments (indent : string) (args : list introspectionInputField)
    (rendered : list string) (sb : Builder) :
  List.map (fun arg => resolved_text (arg_Type arg)) args = List.map Ok rendered ->
  each (print_input_value indent (fun arg => Some (arg_Description arg))) args sb
  = Returned (sb ++ argument_lines indent args rendered, None).
Proof.
  revert rendered sb. induction args as [|arg args IH]; intros rendered sb H.
  - cbn. now rewrite append_nil_r.
  - destruct rendered as [|r rendered]; [discriminate|].
    cbn [List.map] in H. injection H as Hr Hrest.
    cbn [each]. unfold print_input_value at 1. rewrite Hr. cbn [and_then].
    rewrite (IH rendered) by assumption.
    unfold WriteString, argument_text. cbn [argument_lines].
    rewrite (printDescription_text sb). unfold argument_text.
    now rewrite !append_assoc.
Qed.

Lemma print_arguments_text (indent close : string)
    (args : list introspectionInputField) (rendered : list string) (sb : Builder) :
  List.map (fun arg => resolved_text (arg_Type arg)) args = List.map Ok rendered ->
  print_arguments indent close (fun arg => Some (arg_Description arg)) args sb
  = Returned (sb ++ arguments_text indent close args rendered, None).
Proof.
  intros H. unfold print_arguments, arguments_text. destruct args as [|arg args].
  - cbn. now rewrite append_nil_r.
  - cbn [List.length Nat.ltb Nat.leb].
    rewrite (each_arguments indent (arg :: args) rendered) by exact H.
    cbn [and_then]. unfold WriteString. now rewrite !append_assoc.
Qed.

Lemma each_fields (fields : list introspectedTypeField)
    (rendered : list (list string * string)) (sb : Builder) :
  fields_resolve fields rendered ->
  each (print_field field_Description (fun arg => Some (arg_Description arg)))
       fields sb
  = Returned (sb ++ fields_text fields rendered, None).
Proof.
  intros H. revert sb.
  induction H as [|field r fields rendered [Hargs Htype] _ IH]; intros sb.
  - cbn. now rewrite append_nil_r.
  - cbn [each]. unfold print_field at 1.
    rewrite (print_arguments_text _ _ _ (fst r)) by exact Hargs.
    cbn [and_then]. rewrite Htype. cbn [and_then]. rewrite IH.
    unfold WriteString, field_text. cbn [fields_text].
    rewrite (printDescription_text sb). unfold field_text.
    now rewrite !append_assoc.
Qed.

(** X13: the loops that write a separator after every element but the last
    write the elements joined by the separator. *)
Theorem separated_loop_is_Join (sep : string) (xs : list string) (sb : Builder) :
  write_separated sep xs sb = sb ++ Join xs sep.
Proof. apply write_separated_Join. Qed.

Section ConstructTexts.

Variable Unmarshal_possibleTypes : RawMessage -> result (list (option introspectedType)).
Variable Unmarshal_enumValues : RawMessage -> result (list (option EnumValueDefinition)).

Local Abbreviation printTypes_switch' :=
  (printTypes_switch Unmarshal_possibleTypes Unmarshal_enumValues).
Local Abbreviation printType' := (printType Unmarshal_possibleTypes Unmarshal_enumValues).
Local Abbreviation printTypes' := (printTypes Unmarshal_possibleTypes Unmarshal_enumValues).

(** A definition that is no scalar and whose name does not begin with "__"
    reaches the switch, with the flag set or not. *)
Lemma printTypes_reaches_switch (typ : introspectionTypeDefinition) (wb : bool)
    (sb : Builder) :
  ~ begins_with (typ_Name typ) "__" ->
  typ_Kind typ <> ast_Scalar ->
  printTypes' sb [typ] wb
  = and_then (printTypes_switch' (printDescription sb (typ_Description typ)) typ)
      (fun sb => Returned (WriteString (WriteString sb nl) nl, None)).
Proof.
  intros Hmeta Hkind. unfold printTypes. rewrite each_single. unfold printType.
  destruct (HasPrefix (typ_Name typ) "__") eqn:E.
  - apply HasPrefix_begins_with in E. now elim Hmeta.
  - apply String.eqb_neq in Hkind. rewrite Hkind.
    now rewrite !Bool.andb_false_r.
Qed.

(** X15: an enum type whose values decode is printed as its description, if
    any, then [enum Name {], each value on a line of its own after its
    description, then the closing brace and an empty line. *)
Theorem enum_text (typ : introspectionTypeDefinition)
    (values : list EnumValueDefinition) (wb : bool) (sb : Builder) :
  typ_Kind typ = ast_Enum ->
  ~ begins_with (typ_Name typ) "__" ->
  Unmarshal_enumValues (typ_EnumValues typ) = Ok (List.map Some values) ->
  printTypes' sb [typ] wb
  = Returned (sb ++ printDescription EmptyString (typ_Description typ)
              ++ "enum " ++ typ_Name typ ++ " {" ++ nl
              ++ concat_text (List.map enum_value_text values)
              ++ "}" ++ nl ++ nl, None).
Proof.
  intros Hkind Hmeta Hvalues.
  rewrite printTypes_reaches_switch by (rewrite ?Hkind; easy).
  unfold printTypes_switch. rewrite Hkind, Hvalues.
  replace (String.eqb ast_Enum ast_Object) with false by reflexivity.
  replace (String.eqb ast_Enum ast_Union) with false by reflexivity.
  rewrite String.eqb_refl, each_enum_values. cbn [and_then].
  rewrite (printDescription_text sb). unfold WriteString.
  now rewrite !append_assoc.
Qed.

(** X16: a union type whose possible types decode and resolve is printed as
    its description, if any, then [union Name =] followed at once by the
    rendered possible types joined by a bar, then an empty line. *)
Theorem union_text (typ : introspectionTypeDefinition)
    (possible : list (option introspectedType)) (rendered : list string)
    (wb : bool) (sb : Builder) :
  typ_Kind typ = ast_Union ->
  ~ begins_with (typ_Name typ) "__" ->
  Unmarshal_possibleTypes (typ_PossibleTypes typ) = Ok possible ->
  List.map resolved_text possible = List.map Ok rendered ->
  printTypes' sb [typ] wb
  = Returned (sb ++ printDescription EmptyString (typ_Description typ)
              ++ "union " ++ typ_Name typ ++ " ="
              ++ Join rendered " | " ++ nl ++ nl, None).
Proof.
  intros Hkind Hmeta Hpossible Hrendered.
  rewrite printTypes_reaches_switch by (rewrite ?Hkind; easy).
  unfold printTypes_switch. rewrite Hkind, Hpossible.
  replace (String.eqb ast_Union ast_Object) with false by reflexivity.
  rewrite String.eqb_refl, (print_possible_Join possible rendered) by exact Hrendered.
  cbn [and_then]. rewrite (printDescription_text sb). unfold WriteString.
  now rewrite !append_assoc.
Qed.

(** X17: an object type whose fields have arguments and types that resolve is
    printed as its description, if any, then [type Name ], the interfaces it
    implements joined by an ampersand (the brace follows the last of them at
    once), then each field on a line of its own after its description, its
    arguments between parentheses on lines of their own, then the closing
    brace and an empty line. *)
Theorem object_text (typ : introspectionTypeDefinition)
    (rendered : list (list string * string)) (wb : bool) (sb : Builder) :
  typ_Kind typ = ast_Object ->
  ~ begins_with (typ_Name typ) "__" ->
  fields_resolve (typ_Fields typ) rendered ->
  printTypes' sb [typ] wb
  = Returned (sb ++ printDescription EmptyString (typ_Description typ)
              ++ "type " ++ typ_Name typ ++ " "
              ++ implements_text (typ_Interfaces typ)
              ++ "{" ++ nl
              ++ fields_text (typ_Fields typ) rendered
              ++ "}" ++ nl ++ nl, None).
Proof.
  intros Hkind Hmeta Hrendered.
  rewrite printTypes_reaches_switch by (rewrite ?Hkind; easy).
  unfold printTypes_switch. rewrite Hkind, String.eqb_refl.
  rewrite (each_fields _ rendered) by assumption.
  cbn [and_then]. rewrite (printDescription_text sb).
  destruct (typ_Interfaces typ) as [|iface ifaces] eqn:Hi.
  - cbn [List.length Nat.ltb Nat.leb implements_text]. unfold WriteString.
    now rewrite !append_assoc.
  - cbn [List.length Nat.ltb Nat.leb implements_text].
    rewrite write_separated_Join. unfold WriteString.
    now rewrite !append_assoc.
Qed.


Variable exchange : BuildClientSchemaOptions -> result introspectionResults.

(** X19: when the conversion returns an error the text is empty, and the
    error is the one of the exchange or the one built from the GraphQL errors
    of the response; an error of the printers is never returned. *)
Theorem conversion_error_origin (options : BuildClientSchemaOptions)
    (text : string) (err : error) :
  BuildClientSchemaWithOptions Unmarshal_possibleTypes Unmarshal_enumValues
                               exchange options = Returned (text, Some err) ->
  text = EmptyString
  /\ (exchange options = Err err
      \/ exists schemaResponse,
           exchange options = Ok schemaResponse
           /\ Errors schemaResponse <> []
           /\ err = errors_New ("encountered the following GraphQL errors: "
                                ++ Join (List.map Message (Errors schemaResponse)) ",")).
Proof.
  unfold BuildClientSchemaWithOptions.
  destruct (exchange options) as [schemaResponse|e|]; try discriminate.
  - destruct (Errors schemaResponse) as [|e0 errs] eqn:E;
      cbn [List.length Nat.eqb negb].
    + destruct (printSchema _ _ _ _); discriminate.
    + intros H. injection H as <- <-. split; [reflexivity|].
      right. exists schemaResponse. rewrite E. repeat split; easy.
  - intros H. injection H as <- <-. split; [reflexivity | now left].
Qed.

End ConstructTexts.

Lemma enum_text_witness :
  printTypes no_possibleTypes (fun _ => Ok (List.map Some Color_values))
             EmptyString [Color_type] true
  = Returned ("enum Color {" ++ nl
              ++ quote3 ++ "primary red" ++ quote3 ++ nl
              ++ tab ++ "RED" ++ nl
              ++ tab ++ "GREEN" ++ nl
              ++ tab ++ "BLUE" ++ nl
              ++ "}" ++ nl ++ nl, None).
Proof.
  apply (enum_text no_possibleTypes (fun _ => Ok (List.map Some Color_values))
                   Color_type Color_values true EmptyString).
  - reflexivity.
  - intros (rest & H). discriminate H.
  - reflexivity.
Defined.

Lemma union_text_witness :
  printTypes (fun _ => Ok Pet_possible) no_enumValues EmptyString [Pet_type] false
  = Returned ("union Pet =Cat | Dog" ++ nl ++ nl, None).
Proof.
  apply (union_text (fun _ => Ok Pet_possible) no_enumValues
                    Pet_type Pet_possible ["Cat"; "Dog"] false EmptyString).
  - reflexivity.
  - intros (rest & H). discriminate H.
  - reflexivity.
  - reflexivity.
Defined.

Lemma object_text_witness :
  printTypes no_possibleTypes no_enumValues EmptyString [User_type] false
  = Returned ("type User implements Node{" ++ nl
              ++ tab ++ "posts(" ++ nl
              ++ tab ++ tab ++ "first: Int" ++ nl
              ++ tab ++ "): [Post!]!" ++ nl
              ++ "}" ++ nl ++ nl, None).
Proof.
  apply (object_text no_possibleTypes no_enumValues User_type
                     [(["Int"], "[Post!]!")] false EmptyString).
  - reflexivity.
  - intros (rest & H). discriminate H.
  - repeat constructor.
Defined.


Lemma conversion_error_origin_witness :
  EmptyString = EmptyString
  /\ (refused_exchange post_options = Err (transport_error "connection refused")
      \/ exists schemaResponse,
           refused_exchange post_options = Ok schemaResponse
           /\ Errors schemaResponse <> []
           /\ transport_error "connection refused"
              = errors_New ("encountered the following GraphQL errors: "
                            ++ Join (List.map Message (Errors schemaResponse)) ",")).
Proof.
  apply (conversion_error_origin no_possibleTypes no_enumValues
                                 refused_exchange post_options).
  reflexivity.
Defined.

(** ** Directives and empty lines *)

(** X14: a directive whose arguments have types that resolve is printed, with
    the flag unset, as its description, if any, then [directive @name], then,
    if it has arguments, each argument on a line of its own between
    parentheses, after its description, then [ on ] and the locations joined
    by a bar, then an empty line. *)
Theorem directive_text (directive : introspectionDirectiveDefinition)
    (rendered : list string) (sb : Builder) :
  List.map (fun arg => resolved_text (arg_Type arg)) (directive_Args directive)
  = List.map Ok rendered ->
  printDirectives sb [directive] false
  = Returned (sb ++ printDescription EmptyString (directive_Description directive)
              ++ "directive @" ++ directive_Name directive
              ++ arguments_text tab ")" (directive_Args directive) rendered
              ++ " on " ++ Join (directive_Locations directive) " | "
              ++ nl ++ nl, None).
Proof.
  intros H. unfold printDirectives. rewrite each_single. unfold printDirective.
  cbn [andb]. rewrite (print_arguments_text tab ")" _ rendered) by exact H.
  cbn [and_then]. rewrite write_separated_Join, (printDescription_text sb).
  unfold WriteString. now rewrite !append_assoc.
Qed.

Lemma directive_text_witness :
  printDirectives EmptyString [include_directive] false
  = Returned ("directive @include(" ++ nl
              ++ quote3 ++ "Included when true." ++ quote3 ++ nl
              ++ tab ++ "if: Boolean!" ++ nl
              ++ ") on FIELD" ++ nl ++ nl, None).
Proof.
  apply (directive_text include_directive ["Boolean!"] EmptyString). reflexivity.
Defined.

Section EmptyLines.

Variable Unmarshal_possibleTypes : RawMessage -> result (list (option introspectedType)).
Variable Unmarshal_enumValues : RawMessage -> result (list (option EnumValueDefinition)).

Local Abbreviation printTypes_switch' :=
  (printTypes_switch Unmarshal_possibleTypes Unmarshal_enumValues).
Local Abbreviation printTypes' := (printTypes Unmarshal_possibleTypes Unmarshal_enumValues).

(** X20: a definition printed without error is skipped, leaving the builder
    as it was, or adds a text that ends with an empty line; so does a
    directive. *)
Theorem printed_definition_ends_with_empty_line (wb : bool) (sb sb' : Builder) :
  (forall typ,
     printTypes' sb [typ] wb = Returned (sb', None) ->
     sb' = sb \/ exists text, sb' = sb ++ text ++ nl ++ nl)
  /\ (forall directive,
        printDirectives sb [directive] wb = Returned (sb', None) ->
        sb' = sb \/ exists text, sb' = sb ++ text ++ nl ++ nl).
Proof.
  split.
  - intros typ. unfold printTypes. rewrite each_single. unfold printType.
    destruct (HasPrefix _ _); [intros H; left; now injection H|].
    destruct (_ && _); [intros H; left; now injection H|].
    rewrite (printDescription_text sb), printTypes_switch_prefixed.
    destruct (printTypes_switch' _ typ) as [[sb1 [err|]]|]; cbn [prefixed and_then];
      try discriminate.
    intros H. injection H as <-. right. exists sb1.
    unfold WriteString. now rewrite !append_assoc.
  - intros directive. unfold printDirectives. rewrite each_single.
    unfold printDirective.
    destruct (_ && _); [intros H; left; now injection H|].
    rewrite (printDescription_text sb).
    rewrite !WriteString_prefixed, print_arguments_prefixed.
    destruct (print_arguments _ _ _ _ _) as [[sb1 [err|]]|]; cbn [prefixed and_then];
      try discriminate.
    intros H. injection H as <-. right.
    exists (write_separated " | " (directive_Locations directive)
                            (WriteString sb1 " on ")).
    rewrite !WriteString_prefixed, write_separated_prefixed.
    unfold WriteString. now rewrite !append_assoc.
Qed.

End EmptyLines.

Lemma printed_definition_ends_with_empty_line_witness :
  "scalar String" ++ nl ++ nl = EmptyString
  \/ exists text, "scalar String" ++ nl ++ nl = EmptyString ++ text ++ nl ++ nl.
Proof.
  apply (proj1 (printed_definition_ends_with_empty_line
                  no_possibleTypes no_enumValues false EmptyString
                  ("scalar String" ++ nl ++ nl)) String_scalar).
  reflexivity.
Defined.
